(** * receptor: node start-up (cmd/receptor main) and the websocket backend

    A shallow embedding of the two source files of the repository:
    - the command's [main] package: [nodeCfg.Init] and [main];
    - [pkg/backends/websockets.go]: the websocket dialer, listener and
      session, and their command-line and file configurations.

    Conventions.
    - A Go [string] is a [string] of bytes; a Go [int] or [time.Duration]
      is a [Z]; a [float64] is a primitive binary64 [float].
    - A nilable pointer or interface is an [option]; a Go [error] result is
      [option error] with [None] for [nil].
    - A run-time panic (index out of range, nil dereference, close of a
      closed channel) is the [Panic] outcome of the [go] monad.
    - What the operating system, the network or a package outside the two
      files answers is an explicit argument of the function that asks. *)

From Stdlib Require Import ZArith List String Ascii Bool Lia Floats Permutation.
From Stdlib Require DecimalString.
Import ListNotations.
Local Open Scope string_scope.
Local Open Scope Z_scope.

Set Implicit Arguments.

(* ------------------------------------------------------------------ *)
(** ** Errors and panics *)

(** Go [error] values that occur in the two files.  [Errorf] is an error
    made by [fmt.Errorf] from an already formatted message, [Wrapf] one
    made with the [%w] verb around [inner]. *)
Inductive error : Type :=
| ErrTimeout                                   (* netceptor.ErrTimeout *)
| ErrInvalidHTTPHeader                         (* backends.ErrInvalidHTTPHeader *)
| ErrClosed                                    (* use of a closed connection *)
| Errorf (msg : string)
| Wrapf (msg : string) (inner : error)
| LibError (msg : string).                     (* an error of another package *)

Fixpoint Error (e : error) : string :=
  match e with
  | ErrTimeout => "timeout"
  | ErrInvalidHTTPHeader => "invalid http header"
  | ErrClosed => "use of closed network connection"
  | Errorf msg => msg
  | Wrapf msg inner => msg ++ Error inner
  | LibError msg => msg
  end.

(** The outcome of running Go code that may panic. *)
Inductive go (A : Type) : Type :=
| Return (a : A)
| Panic (why : string).
Arguments Panic {A} why.

Definition bind {A B} (m : go A) (k : A -> go B) : go B :=
  match m with
  | Return a => k a
  | Panic why => Panic why
  end.

Notation "x <- m ;; k" := (bind m (fun x => k))
  (at level 61, m at next level, right associativity).
Notation "' p <- m ;; k" := (bind m (fun x => match x with p => k end))
  (at level 61, p pattern, m at next level, right associativity).

Definition panics {A} (m : go A) : bool :=
  match m with Return _ => false | Panic _ => true end.

(** [xs[i]] on a slice. *)
Definition index {A} (xs : list A) (i : nat) : go A :=
  match nth_error xs i with
  | Some x => Return x
  | None => Panic "index out of range"
  end.

(** [*p] on a nilable pointer. *)
Definition deref {A} (p : option A) : go A :=
  match p with
  | Some x => Return x
  | None => Panic "nil pointer dereference"
  end.

Definition quote : string := String (ascii_of_nat 34) EmptyString.
Definition nl : string := String (ascii_of_nat 10) EmptyString.

(* ------------------------------------------------------------------ *)
(** ** The functions of Go's [strings] package that the files call *)

Module strings.

Definition len (s : string) : Z := Z.of_nat (String.length s).

(** [s[:m]] and [s[m:]]. *)
Definition slice_to (s : string) (m : Z) : string :=
  substring 0 (Z.to_nat m) s.
Definition slice_from (s : string) (m : Z) : string :=
  substring (Z.to_nat m) (String.length s - Z.to_nat m) s.

Definition HasPrefix (s pre : string) : bool := prefix pre s.

(** [Index]: the byte offset of the first [substr] in [s], or [-1]. *)
Fixpoint Index (s substr : string) : Z :=
  if prefix substr s then 0
  else match s with
       | EmptyString => -1
       | String _ s' =>
           let r := Index s' substr in
           if r <? 0 then -1 else r + 1
       end.

Definition Contains (s substr : string) : bool := 0 <=? Index s substr.

(** [ToLower] on ASCII: the capitals are mapped, every other byte is left
    as it is.  The files compare the result with "localhost" and with the
    prefix "localhost."; no rune outside ASCII has one of these letters as
    its lower case, so on both comparisons this agrees with Go's mapping of
    all of Unicode. *)
Definition lower_byte (c : ascii) : ascii :=
  let n := nat_of_ascii c in
  if ((65 <=? n) && (n <=? 90))%nat then ascii_of_nat (n + 32) else c.

Fixpoint ToLower (s : string) : string :=
  match s with
  | EmptyString => EmptyString
  | String c s' => String (lower_byte c) (ToLower s')
  end.

(** [Count] of non-overlapping [sep] in [s], for a non-empty [sep]. *)
Fixpoint count_loop (fuel : nat) (s sep : string) : Z :=
  match fuel with
  | O => 0
  | S fuel' =>
      let m := Index s sep in
      if m <? 0 then 0
      else 1 + count_loop fuel' (slice_from s (m + len sep)) sep
  end.

Definition Count (s sep : string) : Z :=
  if String.eqb sep "" then len s + 1
  else count_loop (S (String.length s)) s sep.

(** [explode]: [s] cut into at most [n] one-byte strings, the last one
    holding the rest. *)
Fixpoint explode (n : nat) (s : string) : list string :=
  match s with
  | EmptyString => []
  | String c s' =>
      match n with
      | O => []
      | S O => [s]
      | S n' => String c EmptyString :: explode n' s'
      end
  end.

(** The loop of [genSplit]: at most [n] cuts, then the rest. *)
Fixpoint split_loop (n : nat) (s sep : string) : list string :=
  match n with
  | O => [s]
  | S n' =>
      let m := Index s sep in
      if m <? 0 then [s]
      else slice_to s m :: split_loop n' (slice_from s (m + len sep)) sep
  end.

Definition genSplit (s sep : string) (n : Z) : list string :=
  if n =? 0 then []
  else if String.eqb sep "" then
    explode (Z.to_nat (if n <? 0 then len s else Z.min n (len s))) s
  else
    let n := if n <? 0 then Count s sep + 1 else n in
    let n := if len s + 1 <? n then len s + 1 else n in
    split_loop (Z.to_nat (n - 1)) s sep.

Definition SplitN (s sep : string) (n : Z) : list string := genSplit s sep n.
Definition Split (s sep : string) : list string := genSplit s sep (-1).

(** [TrimSpace] removes the leading and the trailing white space, where
    white space is what [unicode.IsSpace] accepts: tab, line feed, vertical
    tab, form feed, carriage return, space, U+0085, U+00A0, U+1680, U+2000 to
    U+200A, U+2028, U+2029, U+202F, U+205F and U+3000.  Go decodes the string
    as UTF-8, from the front for the left end and from the back for the
    right end, and a byte that is no valid encoding counts as a rune that is
    no white space.  Each of these runes has one valid encoding, of one to
    three bytes, whose bytes after the first are continuation bytes; so the
    leading rune is white space exactly when the string begins with one of
    these encodings, and the last rune exactly when it ends with one.

    [space_width l] is the number of bytes of the white space that [l]
    begins with, or 0; [space_width_back l] is that of the white space that
    a string ends with, given its bytes from the last to the first. *)
Definition is_space (c : ascii) : bool :=
  let n := nat_of_ascii c in
  (((9 <=? n) && (n <=? 13)) || (n =? 32))%nat.

Definition is_space3 (n1 n2 n3 : nat) : bool :=
  (((n1 =? 225) && (n2 =? 154) && (n3 =? 128))
   || ((n1 =? 226) && (n2 =? 128)
       && (((128 <=? n3) && (n3 <=? 138)) || (n3 =? 168) || (n3 =? 169) || (n3 =? 175)))
   || ((n1 =? 226) && (n2 =? 129) && (n3 =? 159))
   || ((n1 =? 227) && (n2 =? 128) && (n3 =? 128)))%nat.

Definition is_space2 (n1 n2 : nat) : bool :=
  ((n1 =? 194) && ((n2 =? 133) || (n2 =? 160)))%nat.

Definition space_width (l : list ascii) : nat :=
  match l with
  | [] => 0
  | c1 :: rest =>
      if is_space c1 then 1
      else match rest with
           | [] => 0
           | c2 :: rest' =>
               if is_space2 (nat_of_ascii c1) (nat_of_ascii c2) then 2
               else match rest' with
                    | [] => 0
                    | c3 :: _ =>
                        if is_space3 (nat_of_ascii c1) (nat_of_ascii c2) (nat_of_ascii c3)
                        then 3 else 0
                    end
           end
  end%nat.

Definition space_width_back (l : list ascii) : nat :=
  match l with
  | [] => 0
  | c1 :: rest =>
      if is_space c1 then 1
      else match rest with
           | [] => 0
           | c2 :: rest' =>
               if is_space2 (nat_of_ascii c2) (nat_of_ascii c1) then 2
               else match rest' with
                    | [] => 0
                    | c3 :: _ =>
                        if is_space3 (nat_of_ascii c3) (nat_of_ascii c2) (nat_of_ascii c1)
                        then 3 else 0
                    end
           end
  end%nat.

(** White space is taken off one rune at a time, at most once per byte. *)
Fixpoint trim_loop (width : list ascii -> nat) (fuel : nat) (l : list ascii)
    : list ascii :=
  match fuel with
  | O => l
  | S fuel' =>
      match width l with
      | O => l
      | w => trim_loop width fuel' (skipn w l)
      end
  end.

Definition trim_left (l : list ascii) : list ascii :=
  trim_loop space_width (List.length l) l.

Definition trim_right (l : list ascii) : list ascii :=
  rev (trim_loop space_width_back (List.length l) (rev l)).

Definition TrimSpace (s : string) : string :=
  string_of_list_ascii (trim_right (trim_left (list_ascii_of_string s))).

(** A string begins, or ends, with white space. *)
Definition leading_space (s : string) : bool :=
  negb (Nat.eqb (space_width (list_ascii_of_string s)) 0).

Definition trailing_space (s : string) : bool :=
  negb (Nat.eqb (space_width_back (rev (list_ascii_of_string s))) 0).

End strings.

(* ------------------------------------------------------------------ *)
(** ** Time, channels and [select] *)

(** Time is counted in ticks of one nanosecond, as [time.Duration] is. *)
Module time.
Definition Duration := Z.
Definition Nanosecond : Duration := 1.
Definition Microsecond : Duration := 1000 * Nanosecond.
Definition Millisecond : Duration := 1000 * Microsecond.
Definition Second : Duration := 1000 * Millisecond.
End time.

(** The two-way [select] that both files use: one channel case and one
    [<-time.After(timeout)] case.  [ready] is the tick from which the channel
    case can proceed ([None]: never), [now] the tick at which the [select] is
    entered.  The case that can proceed first is taken; when both can
    proceed in the same tick Go chooses among them at random, which is the
    caller-supplied [pick].  The result is the case taken and the tick. *)
Inductive fired : Type := ChanCase | TimerCase.

Definition deadline (now : Z) (timeout : time.Duration) : Z :=
  Z.max now (now + timeout).

Definition select2 (pick : fired) (now : Z) (ready : option Z)
    (timeout : time.Duration) : fired * Z :=
  let d := deadline now timeout in
  match ready with
  | None => (TimerCase, d)
  | Some r =>
      let r := Z.max now r in
      if r <? d then (ChanCase, r)
      else if d <? r then (TimerCase, d)
      else (pick, d)
  end.

(** Channels of type [chan struct{}] that are only ever closed: a channel
    is a name, and the store lists the names of the closed ones. *)
Definition chanref := nat.
Definition chanstore := list chanref.

Definition is_closed (st : chanstore) (c : chanref) : bool :=
  existsb (Nat.eqb c) st.

(** [close(c)]: closing a closed channel panics. *)
Definition close (c : chanref) (st : chanstore) : go chanstore :=
  if is_closed st c then Panic "close of closed channel"
  else Return (c :: st).

(* ------------------------------------------------------------------ *)
(** ** The websocket connection (package gorilla/websocket)

    What the session needs of a [*websocket.Conn]: [ReadMessage] blocks until
    the next message or read error is there, [WriteMessage] sends one
    message, [Close] closes the underlying network connection, after which
    writes fail with the closed-connection error, and reads too once what
    the library's reader still holds is used up. *)

Definition bytes := list Byte.byte.

Record recvResult : Type := mkRecvResult {
  data : bytes;
  err : option error
}.

Record Conn : Type := mkConn {
  (** what the coming [ReadMessage] calls return, each with the tick from
      which it is available, in order *)
  inbox : list (Z * recvResult);
  (** the messages written so far, latest first *)
  outbox : list bytes;
  (** an I/O failure of the write side, if any *)
  write_failure : option error;
  conn_closed : bool
}.

Definition WriteMessage (d : bytes) (c : Conn) : option error * Conn :=
  if conn_closed c then (Some ErrClosed, c)
  else match write_failure c with
       | Some e => (Some e, c)
       | None => (None, mkConn (inbox c) (d :: outbox c) None false)
       end.

(** The messages that have arrived by tick [now]. *)
Fixpoint arrived (now : Z) (inbox : list (Z * recvResult)) : list (Z * recvResult) :=
  match inbox with
  | (t, rr) :: rest => if t <=? now then (t, rr) :: arrived now rest else []
  | [] => []
  end.

(** [Close] closes the network connection under the library's buffered
    reader.  Of the messages that have arrived and are not yet read, those
    that the reader has already taken off the connection into its buffer,
    the first [buffered] of them, are still returned by the reads that
    follow; then the reads fail with the closed-connection error.  How much
    the reader holds depends on the sizes of the messages and on when they
    came, so [buffered] is an input.  What has not arrived is gone.  A
    second close reports the closed connection. *)
Definition CloseConn (now : Z) (buffered : nat) (c : Conn) : option error * Conn :=
  if conn_closed c then (Some ErrClosed, c)
  else (None,
        mkConn (firstn buffered (arrived now (inbox c))
                ++ [(now, mkRecvResult [] (Some ErrClosed))])%list
               (outbox c) (write_failure c) true).

(* ------------------------------------------------------------------ *)
(** ** WebsocketSession *)

(** Where the goroutine [recvChannelizer] of a session stands. *)
Inductive channelizer : Type :=
| Reading                        (* blocked in ns.conn.ReadMessage() *)
| Sending (rr : recvResult)      (* blocked in ns.recvChan <- rr *)
| Returned.                      (* left the loop after a read error *)

(** [recvChan] is unbuffered: its state is that of the goroutine that
    sends on it. *)
Record WebsocketSession : Type := mkSession {
  conn : option Conn;
  recvChan : channelizer;
  closeChan : option chanref;
  closeChanCloser : bool          (* sync.Once: has Do run? *)
}.

(** [newWebsocketSession] starts the goroutine. *)
Definition newWebsocketSession (c : option Conn) (closeChan : option chanref)
    : WebsocketSession :=
  mkSession c Reading closeChan false.

(** [recvChannelizer], the goroutine, run up to tick [now].  Its loop is
    [ReadMessage], then the send of the result on [recvChan], then the return
    if the result is an error.  From [Reading] it gets the message that is
    there by [now] and blocks in the send; the send itself happens in the
    [Recv] that takes the value ([offer], [after_handover]).  With a nil
    [conn] its first read panics. *)
Definition recvChannelizer (now : Z) (ns : WebsocketSession)
    : go WebsocketSession :=
  match recvChan ns with
  | Reading =>
      c <- deref (conn ns) ;;
      match inbox c with
      | (t, rr) :: rest =>
          if t <=? now then
            Return (mkSession
                      (Some (mkConn rest (outbox c) (write_failure c) (conn_closed c)))
                      (Sending rr) (closeChan ns) (closeChanCloser ns))
          else Return ns
      | [] => Return ns
      end
  | _ => Return ns
  end.

(** What the goroutine sends next on [recvChan], from which tick on, and the
    session once that value has been received: after an error the goroutine
    returns, otherwise it reads again. *)
Definition after_handover (rr : recvResult) : channelizer :=
  match err rr with
  | Some _ => Returned
  | None => Reading
  end.

Definition offer (now : Z) (ns : WebsocketSession)
    : option (Z * recvResult * WebsocketSession) :=
  match recvChan ns with
  | Sending rr =>
      Some (now, rr,
            mkSession (conn ns) (after_handover rr) (closeChan ns) (closeChanCloser ns))
  | Reading =>
      match conn ns with
      | Some c =>
          match inbox c with
          | (t, rr) :: rest =>
              Some (t, rr,
                    mkSession
                      (Some (mkConn rest (outbox c) (write_failure c) (conn_closed c)))
                      (after_handover rr) (closeChan ns) (closeChanCloser ns))
          | [] => None
          end
      | None => None
      end
  | Returned => None
  end.

(** [Send] *)
Definition Send (d : bytes) (ns : WebsocketSession)
    : go (option error * WebsocketSession) :=
  c <- deref (conn ns) ;;
  let '(e, c') := WriteMessage d c in
  let ns' := mkSession (Some c') (recvChan ns) (closeChan ns) (closeChanCloser ns) in
  match e with
  | Some e => Return (Some e, ns')
  | None => Return (None, ns')
  end.

(** The [select] of [Recv], entered at tick [now]. *)
Definition recv_select (pick : fired) (now : Z) (timeout : time.Duration)
    (ns : WebsocketSession) : fired :=
  match offer now ns with
  | Some (t, _, _) => fst (select2 pick now (Some t) timeout)
  | None => fst (select2 pick now None timeout)
  end.

(** [Recv] called at tick [now]. *)
Definition Recv (pick : fired) (now : Z) (timeout : time.Duration)
    (ns : WebsocketSession) : go ((bytes * option error) * WebsocketSession) :=
  ns <- recvChannelizer now ns ;;
  match recv_select pick now timeout ns, offer now ns with
  | ChanCase, Some (_, rr, ns') => Return ((data rr, err rr), ns')
  | _, _ => Return (([], Some ErrTimeout), ns)
  end.

(** [Close] called at tick [now]: the close channel under [Once], then the
    connection, whose reader holds [buffered] unread messages.  The
    goroutine runs beside it: up to [now] before, and on to the next result
    afterwards if it is blocked in [ReadMessage]. *)
Definition Close (now : Z) (buffered : nat) (ns : WebsocketSession) (st : chanstore)
    : go (option error * WebsocketSession * chanstore) :=
  ns <- recvChannelizer now ns ;;
  '(ns, st) <-
    match closeChan ns with
    | Some ch =>
        if closeChanCloser ns then Return (ns, st)
        else
          st' <- close ch st ;;
          Return (mkSession (conn ns) (recvChan ns) None true, st')
    | None => Return (ns, st)
    end ;;
  c <- deref (conn ns) ;;
  let '(e, c') := CloseConn now buffered c in
  ns <- recvChannelizer now
          (mkSession (Some c') (recvChan ns) (closeChan ns) (closeChanCloser ns)) ;;
  Return (e, ns, st).

(** Is a value for [recvChan] there by tick [t]: one that the goroutine
    holds already, or the next message of the connection? *)
Definition frame_ready_by (t : Z) (ns : WebsocketSession) : bool :=
  match recvChan ns with
  | Sending _ => true
  | Reading =>
      match conn ns with
      | Some c =>
          match inbox c with
          | (t', _) :: _ => t' <=? t
          | [] => false
          end
      | None => false
      end
  | Returned => false
  end.


(** A run of [Recv] calls, each with the choice of its [select], the tick of
    the call and the timeout. *)
Definition recv_call : Type := fired * Z * time.Duration.
Definition call_tick (c : recv_call) : Z := snd (fst c).
Definition call_timeout (c : recv_call) : time.Duration := snd c.

Fixpoint Recv_seq (calls : list recv_call) (ns : WebsocketSession)
    : go (list (bytes * option error) * WebsocketSession) :=
  match calls with
  | [] => Return ([], ns)
  | (pick, now, timeout) :: rest =>
      ' (r, ns) <- Recv pick now timeout ns ;;
      ' (rs, ns) <- Recv_seq rest ns ;;
      Return (r :: rs, ns)
  end.

(** [n] results: those of [first], then time-outs. *)
Fixpoint then_timeouts (n : nat) (first : list (bytes * option error))
    : list (bytes * option error) :=
  match n with
  | O => []
  | S n' =>
      match first with
      | r :: first' => r :: then_timeouts n' first'
      | [] => ([], Some ErrTimeout) :: then_timeouts n' []
      end
  end.

(** What the goroutine still delivers: its results up to the first error,
    after which it returns. *)
Fixpoint until_error (rs : list recvResult) : list (bytes * option error) :=
  match rs with
  | [] => []
  | rr :: rest =>
      (data rr, err rr) ::
      match err rr with
      | Some _ => []
      | None => until_error rest
      end
  end.

Definition deliveries (ns : WebsocketSession) : list (bytes * option error) :=
  let coming := match conn ns with
                | Some c => map snd (inbox c)
                | None => []
                end in
  match recvChan ns with
  | Sending rr => until_error (rr :: coming)
  | Reading => until_error coming
  | Returned => []
  end.


(** What [Recv] can still get once [Close] has run at tick [now] with
    [buffered] unread messages in the reader: the value that the goroutine
    held then, if any, those messages, and the read error of the closed
    connection; the first read error among them ends the deliveries. *)
Definition closed_read : bytes * option error := ([], Some ErrClosed).


(** All messages of the connection are there by tick [t]. *)
Definition arrived_by (t : Z) (ns : WebsocketSession) : Prop :=
  exists c, conn ns = Some c /\ Forall (fun m => fst m <= t) (inbox c).

(** A session as [newWebsocketSession] and its methods leave it: the
    connection is there, and a close channel that [Close] has yet to close
    is open. *)
Definition session_ok (ns : WebsocketSession) (st : chanstore) : Prop :=
  conn ns <> None /\
  forall ch, closeChan ns = Some ch -> closeChanCloser ns = false ->
             is_closed st ch = false.

(* ------------------------------------------------------------------ *)
(** ** The websocket backends *)

(** Values of other packages that the backends only pass on. *)
Inductive tlsConfig : Type := TLSClientOrServer (name : string).
Inductive ServerConf : Type := TLSServerConf (name : string).

(** The fields of a parsed [*url.URL] that the file reads. *)
Record URL : Type := mkURL {
  Scheme : string;
  Host : string;
  Hostname : string
}.

(** An [http.Header] as the sequence of its [Add] calls. *)
Definition Header := list (string * string).
Definition header_Add (k v : string) (h : Header) : Header :=
  (h ++ [(k, v)])%list.

(** The HTTP response of the handshake: what closing its body returns. *)
Record Response : Type := mkResponse {
  Body_Close : option error
}.

(** What [dialer.DialContext] returns: [conn, resp, err]. *)
Record DialOutcome : Type := mkDialOutcome {
  d_conn : option Conn;
  d_resp : option Response;
  d_err : option error
}.

Record WebsocketDialer : Type := mkDialer {
  address : string;
  origin : string;
  redial : bool;
  tlscfg : option tlsConfig;
  extraHeader : string
}.

Record WebsocketListener : Type := mkListener {
  l_address : string;
  path : string;
  l_tlscfg : option tlsConfig;
  li : option string;              (* the bound net.Listener, by address *)
  server : option string
}.

(** The return statements of the dial function in [WebsocketDialer.Start],
    in source order. *)
Inductive dial_return : Type :=
| AfterDialContext      (* if err != nil { return nil, err } *)
| AfterBodyClose        (* if resp.Body.Close(); err != nil { return nil, err } *)
| WithSession.          (* return ns, nil *)

(** Events of a dialer backend, as seen on its session channel and clock. *)
Inductive dialer_event : Type :=
| Emitted (ns : WebsocketSession)      (* a session sent on the channel *)
| DialFailed (e : error)
| Backoff (d : time.Duration)          (* waits [d] before dialing again *)
| Crashed (why : string)
| ChannelClosed.

Section Backends.

(** [url.Parse] of package [net/url]. *)
Variable url_Parse : string -> URL + error.

(** [NewWebsocketDialer] *)
Definition NewWebsocketDialer (address : string) (tlscfg : option tlsConfig)
    (extraHeader : string) (redial : bool)
    : option WebsocketDialer * option error :=
  match url_Parse address with
  | inr err => (None, Some err)
  | inl addrURL =>
      let httpScheme := if String.eqb (Scheme addrURL) "wss" then "https" else "http" in
      (Some (mkDialer address (httpScheme ++ "://" ++ Host addrURL)
                      redial tlscfg extraHeader),
       None)
  end.

(** The header that the dial function builds before it dials. *)
Definition dial_header (b : WebsocketDialer) : go Header :=
  header <-
    (if String.eqb (extraHeader b) "" then Return []
     else
       let extraHeaderParts := strings.SplitN (extraHeader b) ":" 2 in
       k <- index extraHeaderParts 0 ;;
       v <- index extraHeaderParts 1 ;;
       Return (header_Add k v [])) ;;
  Return (header_Add "origin" (origin b) header).

(** The dial function that [Start] hands to [dialerSession].
    [DialContext] is the answer of the network to this attempt. *)
Definition dial (b : WebsocketDialer)
    (DialContext : option tlsConfig -> string -> Header -> DialOutcome)
    (closeChan : option chanref)
    : go (dial_return * (option WebsocketSession * option error)) :=
  header <- dial_header b ;;
  let out := DialContext (tlscfg b) (address b) header in
  let conn := d_conn out in
  let resp := d_resp out in
  let err := d_err out in
  match err with
  | Some e => Return (AfterDialContext, (None, Some e))
  | None =>
      resp <- deref resp ;;
      let _ := Body_Close resp in
      match err with
      | Some e => Return (AfterBodyClose, (None, Some e))
      | None =>
          let ns := newWebsocketSession conn closeChan in
          Return (WithSession, (Some ns, None))
      end
  end.

(** Modelled from the spec: [dialerSession], the helper shared by the
    dialer backends (pkg/backends/utils.go is not among the sources).  The
    spec: a dialer "emits one session and, if redial is enabled, re-emits a
    new session after reconnection with an exponential-then-capped backoff
    (5 s initial)"; "backend dial failures are retried with exponential
    backoff capped at 60 s while the factory's cancellation token is
    unset"; cancellation makes the factory "stop accepting/dialing and close
    the emitting channel".

    [attempts] holds, for each dial made before the cancellation, what the
    network answers; [k] names the close channel made for the attempt.  A
    session that was emitted is lost before the next attempt.  [delay] is
    the current backoff: doubled, up to the cap, after a failed dial and
    back to [redialDelay] after a connection. *)
Definition backoff_cap : time.Duration := 60 * time.Second.

Definition next_backoff (d : time.Duration) : time.Duration :=
  Z.min (2 * d) backoff_cap.

Fixpoint dialer_loop (A : Type) (redial : bool) (redialDelay delay : time.Duration)
    (df : A -> option chanref -> go (dial_return * (option WebsocketSession * option error)))
    (k : chanref) (attempts : list A) : list dialer_event :=
  match attempts with
  | [] => [ChannelClosed]
  | a :: rest =>
      match df a (Some k) with
      | Panic why => [Crashed why]
      | Return (_, (_, Some e)) =>
          DialFailed e ::
          (if redial
           then Backoff delay ::
                dialer_loop redial redialDelay (next_backoff delay) df (S k) rest
           else [ChannelClosed])
      | Return (_, (Some ns, None)) =>
          Emitted ns ::
          (if redial
           then Backoff redialDelay ::
                dialer_loop redial redialDelay (next_backoff redialDelay) df (S k) rest
           else [ChannelClosed])
      | Return (_, (None, None)) => [Crashed "nil session"]
      end
  end.

(** The delay that follows each emitted session, and all delays. *)
Fixpoint redial_delays (tr : list dialer_event) : list time.Duration :=
  match tr with
  | [] => []
  | Emitted _ :: rest =>
      match rest with
      | Backoff d :: _ => d :: redial_delays rest
      | _ => redial_delays rest
      end
  | _ :: rest => redial_delays rest
  end.

Fixpoint backoffs (tr : list dialer_event) : list time.Duration :=
  match tr with
  | [] => []
  | Backoff d :: rest => d :: backoffs rest
  | _ :: rest => backoffs rest
  end.

Definition dialerSession (A : Type) (redial : bool) (redialDelay : time.Duration)
    (df : A -> option chanref -> go (dial_return * (option WebsocketSession * option error)))
    (attempts : list A) : list dialer_event :=
  dialer_loop redial redialDelay redialDelay df O attempts.

(** [WebsocketDialer.Start] *)
Definition WebsocketDialer_Start (b : WebsocketDialer)
    (attempts : list (option tlsConfig -> string -> Header -> DialOutcome))
    : list dialer_event :=
  dialerSession (redial b) (5 * time.Second)
    (fun DialContext closeChan => dial b DialContext closeChan)
    attempts.

(** [NewWebsocketListener] *)
Definition NewWebsocketListener (address : string) (tlscfg : option tlsConfig)
    : option WebsocketListener * option error :=
  let ul := mkListener address "/" tlscfg None None in
  (Some ul, None).

(** [SetPath], [Addr] and [Path] *)
Definition SetPath (path : string) (b : WebsocketListener) : WebsocketListener :=
  mkListener (l_address b) path (l_tlscfg b) (li b) (server b).

Definition Addr (b : WebsocketListener) : option string :=
  match li b with
  | None => None
  | Some l => Some l
  end.

Definition Path (b : WebsocketListener) : string := path b.

End Backends.

(* ------------------------------------------------------------------ *)
(** ** Command-line and file configuration of the websocket backends *)

(** A [map[string]float64] is given by its entries in the order in which
    [range] visits them (Go leaves that order open). *)
Definition costmap := list (string * float).

Record websocketListenerCfg : Type := mkListenerCfg {
  BindAddr : string;
  Port : Z;
  lc_Path : string;
  lc_TLS : string;
  lc_Cost : float;
  NodeCost : costmap
}.

Record websocketDialerCfg : Type := mkDialerCfg {
  Address : string;
  Redial : bool;
  ExtraHeader : string;
  dc_TLS : string;
  dc_Cost : float
}.

Record WSListen : Type := mkWSListen {
  wl_TLS : option ServerConf;
  wl_Address : string;
  wl_Cost : option float;
  NodeCosts : costmap;
  wl_Path : option string
}.

Record WSDial : Type := mkWSDial {
  wd_TLS : option ServerConf;
  wd_Address : string;
  wd_Cost : option float;
  NoRedial : bool;
  wd_ExtraHeader : option string
}.

(** [cost <= 0.0] on [float64]. *)
Definition nonpositive (cost : float) : Prop := (cost <=? 0)%float = true.

(** The [range] loop of [websocketListenerCfg.Prepare]. *)
Fixpoint range_NodeCost (m : costmap) : option error :=
  match m with
  | [] => None
  | (node, cost) :: rest =>
      if (cost <=? 0)%float
      then Some (Errorf ("connection cost must be positive for " ++ node))
      else range_NodeCost rest
  end.

(** [websocketListenerCfg.Prepare] *)
Definition websocketListenerCfg_Prepare (cfg : websocketListenerCfg) : option error :=
  if (lc_Cost cfg <=? 0)%float
  then Some (Errorf "connection cost must be positive")
  else match range_NodeCost (NodeCost cfg) with
       | Some e => Some e
       | None => None
       end.

Section Configuration.

Variable url_Parse : string -> URL + error.

(** Of [pkg/tls] and [pkg/netceptor], and the cost checks of
    [pkg/backends/utils.go]: called by the [setup] methods, not among the
    sources. *)
Variable TLSConfig : ServerConf -> option tlsConfig * option error.
Variable validateListenerCost :
  option float -> costmap -> float * costmap * option error.
Variable validateDialCost : option float -> float * option error.
Variable AddBackend_listener :
  option WebsocketListener -> float -> costmap -> option error.
Variable AddBackend_dialer :
  option WebsocketDialer -> float -> option error.
Variable GetClientTLSConfig :
  string -> string -> string -> option tlsConfig * option error.

(** [websocketDialerCfg.Prepare] *)
Definition websocketDialerCfg_Prepare (cfg : websocketDialerCfg) : option error :=
  if (dc_Cost cfg <=? 0)%float
  then Some (Errorf "connection cost must be positive")
  else match url_Parse (Address cfg) with
       | inr err =>
           Some (Errorf ("address " ++ Address cfg ++ " is not a valid URL: " ++ Error err))
       | inl _ =>
           if negb (String.eqb (ExtraHeader cfg) "")
              && negb (strings.Contains (ExtraHeader cfg) ":")
           then Some (Errorf "extra header must be in the form key:value")
           else None
       end.

(** [websocketDialerCfg.Run], with the dialer it hands to [AddBackend], if
    it gets that far. *)
Definition websocketDialerCfg_Run (cfg : websocketDialerCfg)
    : option WebsocketDialer * option error :=
  match url_Parse (Address cfg) with
  | inr err => (None, Some err)
  | inl u =>
      let tlsCfgName :=
        if String.eqb (Scheme u) "wss" && String.eqb (dc_TLS cfg) ""
        then "default" else dc_TLS cfg in
      let '(tlscfg, err) := GetClientTLSConfig tlsCfgName (Hostname u) "dns" in
      match err with
      | Some e => (None, Some e)
      | None =>
          let '(b, err) :=
            NewWebsocketDialer url_Parse (Address cfg) tlscfg (ExtraHeader cfg)
                               (Redial cfg) in
          match err with
          | Some e => (None, Some e)
          | None => (b, AddBackend_dialer b (dc_Cost cfg))
          end
      end
  end.

(** [PreReload] of both configurations *)
Definition websocketDialerCfg_PreReload (cfg : websocketDialerCfg) : option error :=
  websocketDialerCfg_Prepare cfg.
Definition websocketListenerCfg_PreReload (cfg : websocketListenerCfg) : option error :=
  websocketListenerCfg_Prepare cfg.

(** [WSListen.setup] *)
Definition WSListen_setup (c : WSListen) : go (option error) :=
  let '(tlsConf, err) :=
    match wl_TLS c with
    | Some t => TLSConfig t
    | None => (None, None)
    end in
  match err with
  | Some e =>
      Return (Some (Wrapf ("could not create tls config for ws listener "
                           ++ wl_Address c ++ ": ") e))
  | None =>
      let '(b, err) := NewWebsocketListener (wl_Address c) tlsConf in
      b <- match wl_Path c with
           | Some p => l <- deref b ;; Return (Some (SetPath p l))
           | None => Return b
           end ;;
      match err with
      | Some e =>
          Return (Some (Wrapf ("could not create ws listener for "
                               ++ wl_Address c ++ " from config: ") e))
      | None =>
          let '(cost, nodeCosts, err) := validateListenerCost (wl_Cost c) (NodeCosts c) in
          match err with
          | Some e =>
              Return (Some (Wrapf ("invalid ws listener config for "
                                   ++ wl_Address c ++ ": ") e))
          | None =>
              match AddBackend_listener b cost nodeCosts with
              | Some e =>
                  Return (Some (Wrapf ("error creating backend for ws listener "
                                       ++ wl_Address c ++ ": ") e))
              | None => Return None
              end
          end
      end
  end.

(** [WSDial.setup], with the dialer it hands to [AddBackend], if it gets
    that far. *)
Definition WSDial_setup (c : WSDial) : option WebsocketDialer * option error :=
  let check :=
    match wd_ExtraHeader c with
    | Some h =>
        if String.eqb h "" || negb (strings.Contains h ":")
        then inr (Wrapf ("invalid ws parameters for ws listener "
                         ++ wd_Address c ++ ": ") ErrInvalidHTTPHeader)
        else inl h
    | None => inl ""
    end in
  match check with
  | inr e => (None, Some e)
  | inl extraHeader =>
      let '(tlsConf, err) :=
        match wd_TLS c with
        | Some t => TLSConfig t
        | None => (None, None)
        end in
      match err with
      | Some e =>
          (None, Some (Wrapf ("could not create tls config for ws dialer "
                              ++ wd_Address c ++ ": ") e))
      | None =>
          let '(b, err) :=
            NewWebsocketDialer url_Parse (wd_Address c) tlsConf extraHeader
                               (negb (NoRedial c)) in
          match err with
          | Some e =>
              (None, Some (Wrapf ("could not create ws dialer for "
                                  ++ wd_Address c ++ " from config: ") e))
          | None =>
              let '(cost, err) := validateDialCost (wd_Cost c) in
              match err with
              | Some e =>
                  (None, Some (Wrapf ("invalid ws listener dialer for "
                                      ++ wd_Address c ++ ": ") e))
              | None =>
                  match AddBackend_dialer b cost with
                  | Some e =>
                      (b, Some (Wrapf ("error creating backend for ws dialer "
                                       ++ wd_Address c ++ ": ") e))
                  | None => (b, None)
                  end
              end
          end
      end
  end.

End Configuration.

(* ------------------------------------------------------------------ *)
(** ** The command: [nodeCfg.Init] and [main] *)

Record nodeCfg : Type := mkNodeCfg {
  ID : string;
  AllowedPeers : string;
  DataDir : string
}.

(** The instances that [Init] makes, by what they are made from. *)
Record Netceptor : Type := netceptor_New {
  NodeID : string;
  allowedPeers : list string
}.

Inductive Workceptor : Type := mkWorkceptor (nc : Netceptor) (dataDir : string).

Inductive ControlSvc : Type := controlsvc_New (stdServices : bool) (nc : Netceptor).

(** The package variables [netceptor.MainInstance], [workceptor.MainInstance]
    and [controlsvc.MainInstance]. *)
Record globals : Type := mkGlobals {
  netceptor_MainInstance : option Netceptor;
  workceptor_MainInstance : option Workceptor;
  controlsvc_MainInstance : option ControlSvc
}.

Definition no_instances : globals := mkGlobals None None None.

(** The allowed peers of [Init]: the comma separated list, each entry
    trimmed; nil for the empty string. *)
Definition split_AllowedPeers (cfg : nodeCfg) : list string :=
  if negb (String.eqb (AllowedPeers cfg) "")
  then map strings.TrimSpace (strings.Split (AllowedPeers cfg) ",")
  else [].

Section Node.

(** [os.Hostname()] *)
Variable os_Hostname : string * option error.

(** [workceptor.New] and [RegisterWithControlService] of [pkg/workceptor],
    which is not among the sources. *)
Variable workceptor_New : Netceptor -> string -> option Workceptor * option error.
Variable RegisterWithControlService : option Workceptor -> ControlSvc -> option error.

(** The part of [Init] from the allowed peers on, for the node ID [id] that
    the receiver copy [cfg] holds by then. *)
Definition Init_instances (cfg : nodeCfg) (id : string) (g : globals)
    : option error * globals :=
  let allowedPeers := split_AllowedPeers cfg in
  let nc := netceptor_New id allowedPeers in
  let g := mkGlobals (Some nc) (workceptor_MainInstance g) (controlsvc_MainInstance g) in
  let '(w, err) := workceptor_New nc (DataDir cfg) in
  let g := mkGlobals (netceptor_MainInstance g) w (controlsvc_MainInstance g) in
  match err with
  | Some e => (Some e, g)
  | None =>
      let cs := controlsvc_New true nc in
      let g := mkGlobals (netceptor_MainInstance g) (workceptor_MainInstance g) (Some cs) in
      match RegisterWithControlService (workceptor_MainInstance g) cs with
      | Some e => (Some e, g)
      | None => (None, g)
      end
  end.

(** [nodeCfg.Init].  The receiver is a copy: the assignment [cfg.ID = host]
    changes the copy that the rest of the call reads, not the caller's
    value. *)
Definition Init (cfg : nodeCfg) (g : globals) : option error * globals :=
  let step1 :=
    if String.eqb (ID cfg) "" then
      let '(host, err) := os_Hostname in
      match err with
      | Some e => inr e
      | None =>
          let lchost := strings.ToLower host in
          if String.eqb lchost "localhost" || strings.HasPrefix lchost "localhost."
          then inr (Errorf "no node ID specified and local host name is localhost")
          else inl (mkNodeCfg host (AllowedPeers cfg) (DataDir cfg))
      end
    else inl cfg in
  match step1 with
  | inr e => (Some e, g)
  | inl cfg =>
      if String.eqb (strings.ToLower (ID cfg)) "localhost"
      then (Some (Errorf ("node ID " ++ quote ++ "localhost" ++ quote ++ " is reserved")), g)
      else Init_instances cfg (ID cfg) g
  end.

End Node.

(** What [main] prints and logs. *)
Inductive output : Type :=
| Printf (s : string)
| logger_Error (s : string)
| logger_Warning (s : string)
| logger_Info (s : string).

(** How [main] ends: [os.Exit], a return from [main] (exit code 0), or
    never. *)
Inductive ending : Type :=
| os_Exit (code : Z)
| main_returns
| blocks_forever.

Definition exit_code (e : ending) : option Z :=
  match e with
  | os_Exit code => Some code
  | main_returns => Some 0
  | blocks_forever => None
  end.

(** What the run of [main] gets from outside: the command line, what the
    [cmdline] package and [controlsvc.InitReload] return, and the netceptor:
    the tick, counted from the start of the grace timer, at which
    [BackendWait] returns ([None]: it does not), the backend count read then,
    and whether [NetceptorDone] is ever closed. *)
Record process : Type := mkProcess {
  os_Args : list string;
  ParseAndRun : option error;
  WhatRan : string;
  InitReload : string -> option error;
  BackendWait : option Z;
  BackendCount : Z;
  NetceptorDone : bool;
  select_pick : fired
}.

(** The loop of [main] that looks for the configuration file. *)
Fixpoint find_configPath (osArgs : list string) : string :=
  match osArgs with
  | [] => ""
  | arg :: rest =>
      if String.eqb arg "--config" || String.eqb arg "-c" then
        match rest with
        | next :: _ => next
        | [] => ""
        end
      else find_configPath rest
  end.

(** The start-up of [main] up to the [select] went through: the command
    line ran without error, no exclusive command ran, and the reload, if a
    configuration file was named, was set up. *)
Definition started (p : process) : Prop :=
  ParseAndRun p = None /\
  WhatRan p = "" /\
  (find_configPath (tl (os_Args p)) = "" \/
   InitReload p (find_configPath (tl (os_Args p))) = None).

(** [main] from the [select] on: the start-up grace window. *)
Definition main_wait (p : process) : list output * ending :=
  match fst (select2 (select_pick p) 0 (BackendWait p) (100 * time.Millisecond)) with
  | ChanCase =>
      if 0 <? BackendCount p then
        ([logger_Error ("All backends have failed. Exiting." ++ nl)], os_Exit 1)
      else
        ([logger_Warning ("Nothing to do - no backends were specified." ++ nl);
          Printf ("Run " ++ hd "" (os_Args p) ++ " --help for command line instructions." ++ nl)],
         os_Exit 1)
  | TimerCase =>
      ([logger_Info ("Initialization complete" ++ nl)],
       if NetceptorDone p then main_returns else blocks_forever)
  end.

(** [main] *)
Definition main (p : process) : list output * ending :=
  let osArgs := tl (os_Args p) in
  match ParseAndRun p with
  | Some err => ([Printf ("Error: " ++ Error err ++ nl)], os_Exit 1)
  | None =>
      if negb (String.eqb (WhatRan p) "") then ([], os_Exit 0)
      else
        let configPath := find_configPath osArgs in
        let err :=
          if negb (String.eqb configPath "") then InitReload p configPath else None in
        match err with
        | Some err => ([Printf ("Error: " ++ Error err ++ nl)], os_Exit 1)
        | None => main_wait p
        end
  end.

(* ------------------------------------------------------------------ *)
(** ** More of the websocket backend *)

(** Any run of calls of the three methods on one session. *)
Inductive session_call : Type :=
| CallSend (d : bytes)
| CallRecv (pick : fired) (now : Z) (timeout : time.Duration)
| CallClose (now : Z) (buffered : nat).

Fixpoint run_calls (calls : list session_call) (ns : WebsocketSession) (st : chanstore)
    : go (WebsocketSession * chanstore) :=
  match calls with
  | [] => Return (ns, st)
  | CallSend d :: rest =>
      ' (_, ns) <- Send d ns ;;
      run_calls rest ns st
  | CallRecv pick now timeout :: rest =>
      ' (_, ns) <- Recv pick now timeout ns ;;
      run_calls rest ns st
  | CallClose now buffered :: rest =>
      ' (_, ns, st) <- Close now buffered ns st ;;
      run_calls rest ns st
  end.

Definition is_CallClose (c : session_call) : bool :=
  match c with
  | CallClose _ _ => true
  | _ => false
  end.

(** A run of [Send] calls, with the error of each. *)
Fixpoint Send_seq (ds : list bytes) (ns : WebsocketSession)
    : go (list (option error) * WebsocketSession) :=
  match ds with
  | [] => Return ([], ns)
  | d :: rest =>
      ' (e, ns) <- Send d ns ;;
      ' (es, ns) <- Send_seq rest ns ;;
      Return (e :: es, ns)
  end.

(** What the handler of [WebsocketListener.Start] does with one request:
    [upgrader.Upgrade] returns [conn, err]; on an error it is logged and
    nothing is sent, otherwise the new session, made with a nil close
    channel, is sent on the session channel. *)
Inductive listener_event : Type :=
| SessionSent (ns : WebsocketSession)
| UpgradeFailed (log : string).

Definition upgrade_handler (upgrade : option Conn * option error) : listener_event :=
  let '(conn, err) := upgrade in
  match err with
  | Some e => UpgradeFailed ("Error upgrading websocket connection: " ++ Error e ++ nl)
  | None => SessionSent (newWebsocketSession conn None)
  end.

(** [mux.HandleFunc(pattern, ...)] on a new [http.ServeMux] panics on a
    pattern that the mux does not accept.  The empty pattern is never
    accepted; which other patterns are refused differs between the releases
    of Go and is the input [ServeMux_accepts]. *)
Definition mux_HandleFunc (ServeMux_accepts : string -> bool) (pattern : string)
    : go unit :=
  if String.eqb pattern "" then Panic "http: invalid pattern"
  else if ServeMux_accepts pattern then Return tt
       else Panic "http: invalid pattern".

(** [WebsocketListener.Start]: the handler is registered on the path, then
    [net.Listen] answers with the bound listener or an error.  The server
    runs the handler of each request in a goroutine of its own; [handled]
    are the upgrades of the requests in the order in which their handlers
    get to log the error or to send the session, which need not be the
    order in which the requests came.  The result is what is sent on the
    session channel and logged (nil channel on an error), the error, and
    the listener with its [li] assigned. *)
Definition WebsocketListener_Start (ServeMux_accepts : string -> bool)
    (b : WebsocketListener)
    (net_Listen : string -> string -> option string * option error)
    (handled : list (option Conn * option error))
    : go (option (list listener_event) * option error * WebsocketListener) :=
  _ <- mux_HandleFunc ServeMux_accepts (path b) ;;
  let '(l, err) := net_Listen "tcp" (l_address b) in
  let b := mkListener (l_address b) (path b) (l_tlscfg b) l (server b) in
  match err with
  | Some e => Return (None, Some e, b)
  | None =>
      let b := mkListener (l_address b) (path b) (l_tlscfg b) (li b)
                          (Some (l_address b)) in
      Return (Some (map upgrade_handler handled), None, b)
  end.

(** The sessions that a run of the listener sends, and the connections of
    the requests whose upgrade returns no error. *)
Fixpoint sessions_sent (evs : list listener_event) : list WebsocketSession :=
  match evs with
  | [] => []
  | SessionSent ns :: rest => ns :: sessions_sent rest
  | UpgradeFailed _ :: rest => sessions_sent rest
  end.

Fixpoint upgraded (requests : list (option Conn * option error)) : list (option Conn) :=
  match requests with
  | [] => []
  | (conn, None) :: rest => conn :: upgraded rest
  | (_, Some _) :: rest => upgraded rest
  end.

(** [%d] of [fmt.Sprintf] on an [int]. *)
Definition itoa (n : Z) : string := DecimalString.NilZero.string_of_int (Z.to_int n).

Section ListenerRun.

Variable GetServerTLSConfig : string -> option tlsConfig * option error.
Variable AddBackend_listener :
  option WebsocketListener -> float -> costmap -> option error.

(** [websocketListenerCfg.Run], with the listener it hands to [AddBackend],
    if it gets that far. *)
Definition websocketListenerCfg_Run (cfg : websocketListenerCfg)
    : go (option WebsocketListener * option error) :=
  let address := BindAddr cfg ++ ":" ++ itoa (Port cfg) in
  let '(tlscfg, err) := GetServerTLSConfig (lc_TLS cfg) in
  match err with
  | Some e => Return (None, Some e)
  | None =>
      let '(b, err) := NewWebsocketListener address tlscfg in
      match err with
      | Some e => Return (None, Some e)
      | None =>
          l <- deref b ;;
          let b := Some (SetPath (lc_Path cfg) l) in
          match AddBackend_listener b (lc_Cost cfg) (NodeCost cfg) with
          | Some e => Return (b, Some e)
          | None => Return (b, None)
          end
      end
  end.

(** [websocketListenerCfg.Reload] *)
Definition websocketListenerCfg_Reload (cfg : websocketListenerCfg)
    : go (option WebsocketListener * option error) :=
  websocketListenerCfg_Run cfg.

End ListenerRun.

(* ------------------------------------------------------------------ *)
(** ** The Unix socket proxies (package [services])

    The two services loop for ever; a run is given by what the lock, the
    file system, the sockets and the Receptor network answer.  A connection
    is named by a string. *)

Inductive proxy_event : Type :=
| TryLock (lockfile : string)             (* lock.TryLock() on fslock.New(lockfile) *)
| os_RemoveAll (filename : string)
| net_Listen_unix (filename : string)
| ListenAndAdvertise (service : string) (tags : list (string * string))
| debug_Printf (msg : string)
| BridgeConns (c1 c2 : string).           (* go sockutils.BridgeConns(c1, c2) *)

(** One turn of an accept loop: [Accept] fails, or it returns a connection
    and the following dial returns a connection or fails. *)
Inductive proxy_turn : Type :=
| AcceptFails (e : error)
| Accepted (c : string) (dial : string + error).

(** The loop of [UnixProxyServiceInbound]: [uli.Accept()], then
    [s.Dial(node, rservice)]. *)
Fixpoint inbound_loop (turns : list proxy_turn) : list proxy_event :=
  match turns with
  | [] => []
  | AcceptFails e :: _ =>
      [debug_Printf ("Error accepting Unix socket connection: " ++ Error e ++ nl)]
  | Accepted tc (inr e) :: rest =>
      debug_Printf ("Error connecting on Receptor network: " ++ Error e ++ nl)
      :: inbound_loop rest
  | Accepted tc (inl qc) :: rest =>
      BridgeConns tc qc :: inbound_loop rest
  end.

(** [UnixProxyServiceInbound]: the lock on [filename.lock], the removal of
    the socket file, the listener, then the loop.  The three errors are
    what [TryLock], [os.RemoveAll] and [net.Listen] return. *)
Definition UnixProxyServiceInbound (filename : string)
    (lock_err remove_err listen_err : option error)
    (turns : list proxy_turn) : list proxy_event :=
  TryLock (filename ++ ".lock") ::
  match lock_err with
  | Some e => [debug_Printf ("Could not acquire lock on socket file: " ++ Error e ++ nl)]
  | None =>
      os_RemoveAll filename ::
      match remove_err with
      | Some e => [debug_Printf ("Could not overwrite socket file: " ++ Error e ++ nl)]
      | None =>
          net_Listen_unix filename ::
          match listen_err with
          | Some e => [debug_Printf ("Could not listen on socket file: " ++ Error e ++ nl)]
          | None => inbound_loop turns
          end
      end
  end.

(** The loop of [UnixProxyServiceOutbound]: [qli.Accept()], then
    [net.Dial("unix", filename)]. *)
Fixpoint outbound_loop (turns : list proxy_turn) : list proxy_event :=
  match turns with
  | [] => []
  | AcceptFails e :: _ =>
      [debug_Printf ("Error accepting connection on Receptor network: " ++ Error e ++ nl)]
  | Accepted qc (inr e) :: rest =>
      debug_Printf ("Error connecting via Unix socket: " ++ Error e ++ nl)
      :: outbound_loop rest
  | Accepted qc (inl uc) :: rest =>
      BridgeConns qc uc :: outbound_loop rest
  end.

(** [UnixProxyServiceOutbound] *)
Definition UnixProxyServiceOutbound (service filename : string)
    (listen_err : option error)
    (turns : list proxy_turn) : list proxy_event :=
  ListenAndAdvertise service [("type", "Unix Proxy"); ("filename", filename)] ::
  match listen_err with
  | Some e => [debug_Printf ("Error listening on Receptor network: " ++ Error e ++ nl)]
  | None => outbound_loop turns
  end.

(** The connections that a run hands to [BridgeConns], and the turns of a
    script that get that far: those before the first failed [Accept] whose
    dial succeeds. *)
Fixpoint bridged (tr : list proxy_event) : list (string * string) :=
  match tr with
  | [] => []
  | BridgeConns c1 c2 :: rest => (c1, c2) :: bridged rest
  | _ :: rest => bridged rest
  end.

Fixpoint connected (turns : list proxy_turn) : list (string * string) :=
  match turns with
  | [] => []
  | AcceptFails _ :: _ => []
  | Accepted c (inl d) :: rest => (c, d) :: connected rest
  | Accepted _ (inr _) :: rest => connected rest
  end.

(* ------------------------------------------------------------------ *)
(** ** Vocabulary for the properties of [Init] and [main] *)

(** The node ID that [Init] works with: the configured one, or the host
    name when none is configured. *)
Definition effective_ID (os_Hostname : string * option error) (cfg : nodeCfg) : string :=
  if String.eqb (ID cfg) "" then fst os_Hostname else ID cfg.

(** The host name is "localhost" or starts with "localhost.", in any case
    of the letters. *)
Definition localhost_name (host : string) : bool :=
  String.eqb (strings.ToLower host) "localhost"
  || strings.HasPrefix (strings.ToLower host) "localhost.".

(** [Init] returns before it makes an instance: no ID and no host name, no
    ID and a localhost host name, or the reserved ID. *)
Definition ID_rejected (os_Hostname : string * option error) (cfg : nodeCfg) : bool :=
  if String.eqb (ID cfg) "" then
    match snd os_Hostname with
    | Some _ => true
    | None => localhost_name (fst os_Hostname)
    end
  else String.eqb (strings.ToLower (ID cfg)) "localhost".

(** Is [arg] one of the two spellings of the configuration flag? *)
Definition is_config_flag (arg : string) : bool :=
  String.eqb arg "--config" || String.eqb arg "-c".

(* ================================================================== *)
(** * Properties *)

Unset Implicit Arguments.

(* ------------------------------------------------------------------ *)
(** ** Splitting the extra header *)

Lemma Contains_Index (s substr : string) :
  strings.Contains s substr = true <-> 0 <= strings.Index s substr.
Proof.
  unfold strings.Contains. apply Z.leb_le.
Qed.

Lemma Contains_nonempty (s : string) :
  strings.Contains s ":" = true -> s <> "".
Proof.
  intros H ->. discriminate H.
Qed.

(** With a colon in [s], [SplitN(s, ":", 2)] has exactly two parts: what is
    before the first colon and what is after it. *)
Lemma SplitN_colon_two (s : string) :
  strings.Contains s ":" = true ->
  strings.SplitN s ":" 2 =
    [strings.slice_to s (strings.Index s ":");
     strings.slice_from s (strings.Index s ":" + 1)].
Proof.
  intros H.
  pose proof (Contains_nonempty s H) as Hne.
  apply Contains_Index in H.
  unfold strings.SplitN, strings.genSplit.
  change (2 =? 0) with false. change (String.eqb ":" "") with false.
  change (2 <? 0) with false. cbv iota.
  assert (Hlen : (strings.len s + 1 <? 2) = false).
  { apply Z.ltb_ge. unfold strings.len. destruct s; [congruence|].
    simpl String.length. lia. }
  rewrite Hlen. change (Z.to_nat (2 - 1)) with 1%nat.
  unfold strings.split_loop.
  assert (Hm : (strings.Index s ":" <? 0) = false) by (apply Z.ltb_ge; lia).
  rewrite Hm. reflexivity.
Qed.

(** Without one it has a single part, and indexing part 1 is out of range. *)
Lemma SplitN_no_colon (s : string) :
  s <> "" ->
  strings.Contains s ":" = false ->
  strings.SplitN s ":" 2 = [s].
Proof.
  intros Hne H.
  unfold strings.Contains in H. apply Z.leb_gt in H.
  unfold strings.SplitN, strings.genSplit.
  change (2 =? 0) with false. change (String.eqb ":" "") with false.
  change (2 <? 0) with false. cbv iota.
  assert (Hlen : (strings.len s + 1 <? 2) = false).
  { apply Z.ltb_ge. unfold strings.len. destruct s; [congruence|].
    simpl String.length. lia. }
  rewrite Hlen. change (Z.to_nat (2 - 1)) with 1%nat.
  unfold strings.split_loop.
  assert (Hm : (strings.Index s ":" <? 0) = true) by (apply Z.ltb_lt; lia).
  rewrite Hm. reflexivity.
Qed.

Lemma eqb_empty_false (s : string) : s <> "" -> String.eqb s "" = false.
Proof.
  intros H. apply String.eqb_neq. exact H.
Qed.

(** C10.  If a non-empty extra header contains a colon, the dial function's
    [strings.SplitN(b.extraHeader, ":", 2)] yields two parts, so reading
    parts 0 and 1 stays in bounds and the header is built without a panic:
    it holds the pair cut at the first colon, then the origin. *)
Theorem dial_header_in_bounds (b : WebsocketDialer) :
  (extraHeader b <> "" -> strings.Contains (extraHeader b) ":" = true) ->
  panics (dial_header b) = false /\
  (extraHeader b <> "" ->
   exists k v,
     strings.SplitN (extraHeader b) ":" 2 = [k; v] /\
     index (strings.SplitN (extraHeader b) ":" 2) 0 = Return k /\
     index (strings.SplitN (extraHeader b) ":" 2) 1 = Return v /\
     dial_header b = Return [(k, v); ("origin", origin b)]).
Proof.
  intros Hpre.
  destruct (String.eqb (extraHeader b) "") eqn:E.
  - apply String.eqb_eq in E. split.
    + unfold dial_header. rewrite E. reflexivity.
    + intros Hne. congruence.
  - apply String.eqb_neq in E. specialize (Hpre E).
    pose proof (SplitN_colon_two _ Hpre) as Hs.
    assert (Hd : dial_header b =
                 Return [(strings.slice_to (extraHeader b) (strings.Index (extraHeader b) ":"),
                          strings.slice_from (extraHeader b) (strings.Index (extraHeader b) ":" + 1));
                         ("origin", origin b)]).
    { unfold dial_header. rewrite (eqb_empty_false _ E), Hs. reflexivity. }
    split.
    + rewrite Hd. reflexivity.
    + intros _. eexists. eexists. rewrite Hs.
      repeat split. exact Hd.
Qed.

Lemma dial_header_in_bounds_witness :
  dial_header (mkDialer "ws://peer:8080" "http://peer:8080" true None "X-Auth: s:t")
  = Return [("X-Auth", " s:t"); ("origin", "http://peer:8080")].
Proof.
  set (b := mkDialer "ws://peer:8080" "http://peer:8080" true None "X-Auth: s:t").
  assert (Hpre : extraHeader b <> "" -> strings.Contains (extraHeader b) ":" = true)
    by (intros _; reflexivity).
  destruct (dial_header_in_bounds b Hpre) as [_ H].
  destruct H as (k & v & Hs & _ & _ & Hd); [discriminate|].
  rewrite Hd. injection Hs as <- <-. reflexivity.
Defined.

(** Both ways to a dialer check the extra header first. *)
Lemma Prepare_checks_header (url_Parse : string -> URL + error)
    (cfg : websocketDialerCfg) :
  websocketDialerCfg_Prepare url_Parse cfg = None ->
  ExtraHeader cfg <> "" ->
  strings.Contains (ExtraHeader cfg) ":" = true.
Proof.
  unfold websocketDialerCfg_Prepare. intros H Hne.
  destruct (dc_Cost cfg <=? 0)%float; [discriminate|].
  destruct (url_Parse (Address cfg)); [|discriminate].
  rewrite (eqb_empty_false _ Hne) in H. simpl in H.
  destruct (strings.Contains (ExtraHeader cfg) ":"); [reflexivity|discriminate].
Qed.

Lemma NewWebsocketDialer_extraHeader (url_Parse : string -> URL + error)
    (addr : string) (t : option tlsConfig) (h : string) (r : bool)
    (b : WebsocketDialer) (e : option error) :
  NewWebsocketDialer url_Parse addr t h r = (Some b, e) ->
  extraHeader b = h /\ redial b = r /\ address b = addr.
Proof.
  unfold NewWebsocketDialer. destruct (url_Parse addr); [|discriminate].
  intros H. injection H as <- _. repeat split.
Qed.

Lemma Run_keeps_header url_Parse AddBackend_dialer GetClientTLSConfig
    (cfg : websocketDialerCfg) (b : WebsocketDialer) (e : option error) :
  websocketDialerCfg_Run url_Parse AddBackend_dialer GetClientTLSConfig cfg = (Some b, e) ->
  extraHeader b = ExtraHeader cfg.
Proof.
  unfold websocketDialerCfg_Run.
  destruct (url_Parse (Address cfg)) eqn:EU; [|discriminate].
  destruct (GetClientTLSConfig _ _ _) as [t [e1|]]; [discriminate|].
  destruct (NewWebsocketDialer _ _ _ _ _) as [b' [e2|]] eqn:EN; [discriminate|].
  intros H. injection H as -> _.
  apply NewWebsocketDialer_extraHeader in EN. tauto.
Qed.

Lemma WSDial_setup_checks_header url_Parse TLSConfig validateDialCost AddBackend_dialer
    (c : WSDial) (b : WebsocketDialer) (e : option error) :
  WSDial_setup url_Parse TLSConfig validateDialCost AddBackend_dialer c = (Some b, e) ->
  extraHeader b <> "" ->
  strings.Contains (extraHeader b) ":" = true.
Proof.
  unfold WSDial_setup.
  destruct (wd_ExtraHeader c) as [h|].
  - destruct (String.eqb h "" || negb (strings.Contains h ":")) eqn:E; [discriminate|].
    apply orb_false_elim in E. destruct E as [_ E]. apply negb_false_iff in E.
    destruct (match wd_TLS c with Some t => TLSConfig t | None => (None, None) end)
      as [t [e1|]]; [discriminate|].
    destruct (NewWebsocketDialer _ _ _ _ _) as [b' [e2|]] eqn:EN; [discriminate|].
    destruct (validateDialCost (wd_Cost c)) as [cost [e3|]]; [discriminate|].
    intros H Hne.
    assert (b' = Some b) as -> by (destruct (AddBackend_dialer b' cost); congruence).
    apply NewWebsocketDialer_extraHeader in EN. destruct EN as [-> _]. exact E.
  - destruct (match wd_TLS c with Some t => TLSConfig t | None => (None, None) end)
      as [t [e1|]]; [discriminate|].
    destruct (NewWebsocketDialer _ _ _ _ _) as [b' [e2|]] eqn:EN; [discriminate|].
    destruct (validateDialCost (wd_Cost c)) as [cost [e3|]]; [discriminate|].
    intros H Hne.
    assert (b' = Some b) as -> by (destruct (AddBackend_dialer b' cost); congruence).
    apply NewWebsocketDialer_extraHeader in EN. destruct EN as [EH _]. congruence.
Qed.

(* ------------------------------------------------------------------ *)
(** ** The dial function of [WebsocketDialer.Start] *)

(** The dial function never leaves through the check that follows
    [resp.Body.Close()]: that check reads the [err] of [DialContext], which the
    check before it has found nil. *)
Lemma dial_never_returns_after_body_close
    (b : WebsocketDialer)
    (DialContext : option tlsConfig -> string -> Header -> DialOutcome)
    (closeChan : option chanref)
    (res : option WebsocketSession * option error) :
  dial b DialContext closeChan <> Return (AfterBodyClose, res).
Proof.
  unfold dial.
  destruct (dial_header b) as [h|why]; simpl; [|discriminate].
  destruct (d_err (DialContext (tlscfg b) (address b) h)) as [e|] eqn:E.
  - discriminate.
  - destruct (d_resp (DialContext (tlscfg b) (address b) h)); simpl; discriminate.
Qed.

(** C8.  Once [DialContext] has been reached and has returned a nil error
    (with the handshake response that comes with it), the dial function
    returns a session and a nil error, whatever [resp.Body.Close()] returns;
    and no run at all leaves through the error check after the close. *)
Theorem dial_success_yields_session
    (b : WebsocketDialer)
    (DialContext : option tlsConfig -> string -> Header -> DialOutcome)
    (closeChan : option chanref) (h : Header) (resp : Response) :
  dial_header b = Return h ->
  d_err (DialContext (tlscfg b) (address b) h) = None ->
  d_resp (DialContext (tlscfg b) (address b) h) = Some resp ->
  dial b DialContext closeChan =
    Return (WithSession,
            (Some (newWebsocketSession (d_conn (DialContext (tlscfg b) (address b) h))
                                       closeChan),
             None))
  /\ forall res, dial b DialContext closeChan <> Return (AfterBodyClose, res).
Proof.
  intros Hh He Hr. split.
  - unfold dial. rewrite Hh. simpl. rewrite He, Hr. simpl. reflexivity.
  - intros res. apply dial_never_returns_after_body_close.
Qed.

(** A dial whose response body fails to close all the same yields the
    session. *)
Lemma dial_success_yields_session_witness :
  let b := mkDialer "ws://peer:8080" "http://peer:8080" true None "" in
  let c := mkConn [] [] None false in
  let net := fun (_ : option tlsConfig) (_ : string) (_ : Header) =>
               mkDialOutcome (Some c) (Some (mkResponse (Some (LibError "close failed")))) None in
  dial b net (Some 0%nat) =
    Return (WithSession, (Some (mkSession (Some c) Reading (Some 0%nat) false), None)).
Proof.
  intros b c net.
  exact (proj1 (dial_success_yields_session b net (Some 0%nat)
                  [("origin", "http://peer:8080")]
                  (mkResponse (Some (LibError "close failed")))
                  eq_refl eq_refl eq_refl)).
Defined.

(* ------------------------------------------------------------------ *)
(** ** The listener *)

(** C9.  [NewWebsocketListener] returns a listener with path "/" and a nil
    error for every address and TLS configuration, so [WSListen.setup],
    which calls [SetPath] on the result before it looks at the error, never
    dereferences nil: it does not panic, whatever the packages it calls
    answer. *)
Theorem NewWebsocketListener_total :
  (forall (address : string) (tlscfg : option tlsConfig),
     exists l : WebsocketListener,
       NewWebsocketListener address tlscfg = (Some l, None) /\
       Path l = "/" /\ l_address l = address /\ l_tlscfg l = tlscfg) /\
  (forall TLSConfig validateListenerCost AddBackend_listener (c : WSListen),
     panics (WSListen_setup TLSConfig validateListenerCost AddBackend_listener c) = false).
Proof.
  split.
  - intros address tlscfg. eexists. repeat split.
  - intros TLSConfig validateListenerCost AddBackend_listener c.
    unfold WSListen_setup.
    destruct (match wl_TLS c with Some t => TLSConfig t | None => (None, None) end)
      as [tlsConf [e|]]; [reflexivity|].
    unfold NewWebsocketListener.
    destruct (wl_Path c) as [p|]; simpl;
      destruct (validateListenerCost (wl_Cost c) (NodeCosts c)) as [[cost nodeCosts] [e|]];
      try reflexivity;
      destruct (AddBackend_listener _ cost nodeCosts); reflexivity.
Qed.

(** With a path in the configuration, the listener handed on has it. *)
Example WSListen_setup_sets_path :
  let seen := fun (b : option WebsocketListener) (_ : float) (_ : costmap) =>
                match b with
                | Some l => if String.eqb (Path l) "/mesh" then None else Some (Errorf "path")
                | None => Some (Errorf "nil")
                end in
  WSListen_setup (fun _ => (None, None)) (fun _ m => (1%float, m, None)) seen
                 (mkWSListen None "0.0.0.0:80" None [] (Some "/mesh"))
  = Return None.
Proof. reflexivity. Qed.

(* ------------------------------------------------------------------ *)
(** ** [Prepare] *)

Lemma range_NodeCost_error (m : costmap) :
  range_NodeCost m <> None <-> Exists (fun nc => nonpositive (snd nc)) m.
Proof.
  unfold nonpositive. induction m as [|[node cost] m IH]; simpl.
  - split; [congruence|]. intros H. inversion H.
  - destruct (cost <=? 0)%float eqn:E.
    + split; [|discriminate]. intros _. apply Exists_cons_hd. exact E.
    + rewrite IH. split.
      * intros H. apply Exists_cons_tl. exact H.
      * intros H. inversion H as [x l Hx|x l Hl]; subst; simpl in *; [congruence|exact Hl].
Qed.

(** Whether the loop fails does not depend on the order in which [range]
    visits the map (which node the message names does). *)
Lemma range_NodeCost_order (m m' : costmap) :
  Permutation m m' ->
  (range_NodeCost m <> None <-> range_NodeCost m' <> None).
Proof.
  intros HP. rewrite !range_NodeCost_error. split; intros H.
  - apply Exists_exists in H. destruct H as (x & Hin & Hx).
    apply Exists_exists. exists x. split; [|exact Hx].
    apply (Permutation_in _ HP Hin).
  - apply Exists_exists in H. destruct H as (x & Hin & Hx).
    apply Exists_exists. exists x. split; [|exact Hx].
    apply (Permutation_in _ (Permutation_sym HP) Hin).
Qed.

(** C6.  The listener's [Prepare] returns an error exactly when the cost is
    [<= 0] or some per-node cost is; the dialer's exactly when the cost is
    [<= 0], the address does not parse as a URL, or the extra header is
    non-empty and has no colon.  So each of a non-positive cost and a
    malformed address makes [Prepare] fail. *)
Theorem Prepare_rejects_exactly :
  (forall cfg : websocketListenerCfg,
     websocketListenerCfg_Prepare cfg <> None <->
     nonpositive (lc_Cost cfg) \/
     exists node cost, In (node, cost) (NodeCost cfg) /\ nonpositive cost) /\
  (forall (url_Parse : string -> URL + error) (cfg : websocketDialerCfg),
     websocketDialerCfg_Prepare url_Parse cfg <> None <->
     nonpositive (dc_Cost cfg) \/
     (exists e, url_Parse (Address cfg) = inr e) \/
     (ExtraHeader cfg <> "" /\ strings.Contains (ExtraHeader cfg) ":" = false)).
Proof.
  split.
  - intros cfg. unfold websocketListenerCfg_Prepare, nonpositive.
    destruct (lc_Cost cfg <=? 0)%float eqn:E.
    + split; [intros _; left; reflexivity | discriminate].
    + assert (H : match range_NodeCost (NodeCost cfg) with
                  | Some e => Some e | None => None end <> None
                  <-> range_NodeCost (NodeCost cfg) <> None)
        by (destruct (range_NodeCost (NodeCost cfg)); tauto).
      rewrite H, range_NodeCost_error, Exists_exists. unfold nonpositive. split.
      * intros ([node cost] & Hin & Hc). right. exists node, cost. auto.
      * intros [Hc | (node & cost & Hin & Hc)]; [congruence|].
        exists (node, cost). auto.
  - intros url_Parse cfg. unfold websocketDialerCfg_Prepare, nonpositive.
    destruct (dc_Cost cfg <=? 0)%float eqn:E.
    + split; [intros _; left; reflexivity | discriminate].
    + destruct (url_Parse (Address cfg)) as [u|e] eqn:EU.
      * destruct (String.eqb (ExtraHeader cfg) "") eqn:EH; simpl.
        -- apply String.eqb_eq in EH. split; [congruence|].
           intros [Hc | [(e & He) | (Hne & _)]]; congruence.
        -- apply String.eqb_neq in EH.
           destruct (strings.Contains (ExtraHeader cfg) ":") eqn:EC; simpl.
           ++ split; [congruence|].
              intros [Hc | [(e & He) | (_ & Hc)]]; congruence.
           ++ split; [|discriminate]. intros _. right. right. auto.
      * split; [|discriminate]. intros _. right. left. exists e. reflexivity.
Qed.

(** The comparison is that of [float64]: zero and negative zero are
    rejected, a NaN is not. *)
Example Prepare_cost_examples :
  let cfg c := mkListenerCfg "0.0.0.0" 8080 "/" "" c [] in
  websocketListenerCfg_Prepare (cfg 0%float) = Some (Errorf "connection cost must be positive") /\
  websocketListenerCfg_Prepare (cfg (- 0)%float) = Some (Errorf "connection cost must be positive") /\
  websocketListenerCfg_Prepare (cfg 1%float) = None /\
  websocketListenerCfg_Prepare (cfg nan) = None /\
  websocketListenerCfg_Prepare
    (mkListenerCfg "0.0.0.0" 8080 "/" "" 1%float [("a", 2%float); ("b", (-1)%float)])
  = Some (Errorf "connection cost must be positive for b").
Proof. vm_compute. repeat split. Qed.

(* ------------------------------------------------------------------ *)
(** ** [WebsocketDialer.Start] and redialing *)

Section DialerLoop.

Variable A : Type.
Variable df : A -> option chanref ->
              go (dial_return * (option WebsocketSession * option error)).
Variable redialDelay : time.Duration.

Lemma redial_delays_loop (attempts : list A) :
  forall (redial : bool) (delay : time.Duration) (k : chanref),
    Forall (fun d => d = redialDelay)
           (redial_delays (dialer_loop redial redialDelay delay df k attempts)).
Proof.
  induction attempts as [|a rest IH]; intros redial delay k.
  - simpl. constructor.
  - cbn [dialer_loop].
    destruct (df a (Some k)) as [[site [[ns|] [e|]]]|why].
    + destruct redial; cbn [redial_delays]; [apply IH | constructor].
    + destruct redial; cbn [redial_delays]; [|constructor].
      constructor; [reflexivity | apply IH].
    + destruct redial; cbn [redial_delays]; [apply IH | constructor].
    + cbn [redial_delays]. constructor.
    + cbn [redial_delays]. constructor.
Qed.

Lemma next_backoff_bounds (d : time.Duration) :
  0 < redialDelay <= backoff_cap ->
  redialDelay <= d <= backoff_cap ->
  redialDelay <= next_backoff d <= backoff_cap.
Proof.
  unfold next_backoff. intros H1 H2. lia.
Qed.

Lemma backoffs_loop_bounds (attempts : list A) :
  0 < redialDelay <= backoff_cap ->
  forall (redial : bool) (delay : time.Duration) (k : chanref),
    redialDelay <= delay <= backoff_cap ->
    Forall (fun d => redialDelay <= d <= backoff_cap)
           (backoffs (dialer_loop redial redialDelay delay df k attempts)).
Proof.
  intros Hrd.
  induction attempts as [|a rest IH]; intros redial delay k Hd.
  - simpl. constructor.
  - cbn [dialer_loop].
    destruct (df a (Some k)) as [[site [[ns|] [e|]]]|why];
      try (cbn [backoffs]; constructor);
      destruct redial; cbn [backoffs]; try constructor;
      try lia; try (apply IH; apply next_backoff_bounds; lia).
Qed.

Lemma backoffs_loop_no_redial (attempts : list A) (delay : time.Duration) (k : chanref) :
  backoffs (dialer_loop false redialDelay delay df k attempts) = [].
Proof.
  destruct attempts as [|a rest]; [reflexivity|].
  cbn [dialer_loop].
  destruct (df a (Some k)) as [[site [[ns|] [e|]]]|why]; reflexivity.
Qed.

End DialerLoop.

Lemma five_seconds : 5 * time.Second = 5000000000.
Proof. reflexivity. Qed.

(** C7.  [Start] runs the dial function through [dialerSession] with the
    dialer's redial flag and a delay of [5 * time.Second], that is
    5 000 000 000 ns.  So with redial on, the wait that follows every emitted
    (and then lost) session is exactly 5 s, and every wait lies between 5 s
    and the cap of 60 s; with redial off there is no wait at all. *)
Theorem Start_redials_after_five_seconds
    (b : WebsocketDialer)
    (attempts : list (option tlsConfig -> string -> Header -> DialOutcome)) :
  WebsocketDialer_Start b attempts =
    dialerSession (redial b) 5000000000
      (fun DialContext closeChan => dial b DialContext closeChan) attempts /\
  (redial b = true ->
   Forall (fun d => d = 5 * time.Second)
          (redial_delays (WebsocketDialer_Start b attempts)) /\
   Forall (fun d => 5 * time.Second <= d <= 60 * time.Second)
          (backoffs (WebsocketDialer_Start b attempts))) /\
  (redial b = false ->
   backoffs (WebsocketDialer_Start b attempts) = []).
Proof.
  split; [reflexivity|]. split.
  - intros Hr. split.
    + unfold WebsocketDialer_Start, dialerSession. apply redial_delays_loop.
    + unfold WebsocketDialer_Start, dialerSession.
      apply backoffs_loop_bounds; unfold backoff_cap; rewrite five_seconds;
        change (60 * time.Second) with 60000000000; lia.
  - intros Hr. unfold WebsocketDialer_Start, dialerSession. rewrite Hr.
    apply backoffs_loop_no_redial.
Qed.

(** A connection, its loss, two failed dials and a new connection: waits of
    5 s, 10 s and 20 s, and 5 s again after the second session. *)
Lemma Start_redials_after_five_seconds_witness :
  let b := mkDialer "ws://peer:8080" "http://peer:8080" true None "" in
  let c := mkConn [] [] None false in
  let up := fun (_ : option tlsConfig) (_ : string) (_ : Header) =>
              mkDialOutcome (Some c) (Some (mkResponse None)) None in
  let down := fun (_ : option tlsConfig) (_ : string) (_ : Header) =>
                mkDialOutcome None None (Some (LibError "connection refused")) in
  backoffs (WebsocketDialer_Start b [up; down; down; up]) =
    [5000000000; 10000000000; 20000000000; 5000000000] /\
  Forall (fun d => d = 5 * time.Second)
         (redial_delays (WebsocketDialer_Start b [up; down; down; up])).
Proof.
  intros b c up down. split.
  - reflexivity.
  - exact (proj1 (proj1 (proj2 (Start_redials_after_five_seconds b [up; down; down; up]))
                    eq_refl)).
Defined.

(* ------------------------------------------------------------------ *)
(** ** [WebsocketSession]: [Recv] and its timeout *)

Arguments select2 : simpl never.
Arguments deadline : simpl never.

Lemma deadline_ge_now (now : Z) (timeout : time.Duration) :
  now <= deadline now timeout.
Proof.
  unfold deadline. lia.
Qed.

Lemma select2_chan (pick : fired) (now r : Z) (timeout : time.Duration) :
  Z.max now r < deadline now timeout ->
  fst (select2 pick now (Some r) timeout) = ChanCase.
Proof.
  intros H. unfold select2.
  destruct (Z.max now r <? deadline now timeout) eqn:E; [reflexivity|].
  apply Z.ltb_ge in E. lia.
Qed.

Lemma select2_timer (pick : fired) (now r : Z) (timeout : time.Duration) :
  deadline now timeout < r ->
  fst (select2 pick now (Some r) timeout) = TimerCase.
Proof.
  intros H. pose proof (deadline_ge_now now timeout) as Hd. unfold select2.
  destruct (Z.max now r <? deadline now timeout) eqn:E.
  - apply Z.ltb_lt in E. lia.
  - destruct (deadline now timeout <? Z.max now r) eqn:E'; [reflexivity|].
    apply Z.ltb_ge in E'. lia.
Qed.

(** A goroutine that has nothing by tick [t] stays where it is up to [t]. *)
Lemma recvChannelizer_nothing_ready (now t : Z) (ns : WebsocketSession) :
  conn ns <> None ->
  frame_ready_by t ns = false ->
  now <= t ->
  recvChannelizer now ns = Return ns.
Proof.
  intros Hc Hr Hle. unfold recvChannelizer, frame_ready_by in *.
  destruct (recvChan ns); try reflexivity.
  destruct (conn ns) as [c|]; [|congruence]. simpl.
  destruct (inbox c) as [|[t' rr] rest]; [reflexivity|].
  apply Z.leb_gt in Hr.
  destruct (t' <=? now) eqn:E; [|reflexivity].
  apply Z.leb_le in E. lia.
Qed.

(** The [select] of [Recv] takes the timer when nothing is ready by the
    deadline. *)
Lemma recv_select_nothing_ready (pick : fired) (now : Z) (timeout : time.Duration)
    (ns : WebsocketSession) :
  frame_ready_by (deadline now timeout) ns = false ->
  recv_select pick now timeout ns = TimerCase.
Proof.
  intros Hr. unfold recv_select, offer, frame_ready_by in *.
  destruct (recvChan ns); try discriminate; try reflexivity.
  destruct (conn ns) as [c|]; [|reflexivity].
  destruct (inbox c) as [|[t' rr] rest]; [reflexivity|].
  apply Z.leb_gt in Hr. apply select2_timer. exact Hr.
Qed.

(** A [Recv] whose [select] takes the timer returns [ErrTimeout] and leaves
    the session to the goroutine: nothing is taken from [recvChan]. *)
Lemma Recv_timer_case (pick : fired) (now : Z) (timeout : time.Duration)
    (ns ns1 : WebsocketSession) :
  recvChannelizer now ns = Return ns1 ->
  recv_select pick now timeout ns1 = TimerCase ->
  Recv pick now timeout ns = Return (([], Some ErrTimeout), ns1).
Proof.
  intros Hrun Hsel. unfold Recv. rewrite Hrun. simpl. rewrite Hsel. reflexivity.
Qed.

(** C4.  On a session with its connection, a [Recv] for which no value is
    ready up to its deadline returns [ErrTimeout] and leaves the session as
    it was; and it has not consumed the next frame: if the goroutine is
    reading and the connection's next message [(t, rr)] comes later, any
    [Recv] whose deadline lies after [t] returns that very message. *)
Theorem Recv_timeout_keeps_frame
    (pick : fired) (now : Z) (timeout : time.Duration)
    (ns : WebsocketSession) (c : Conn) :
  conn ns = Some c ->
  frame_ready_by (deadline now timeout) ns = false ->
  Recv pick now timeout ns = Return (([], Some ErrTimeout), ns) /\
  forall (t : Z) (rr : recvResult) (rest : list (Z * recvResult)),
    recvChan ns = Reading ->
    inbox c = (t, rr) :: rest ->
    forall (pick2 : fired) (now2 : Z) (timeout2 : time.Duration),
      Z.max now2 t < deadline now2 timeout2 ->
      Recv pick2 now2 timeout2 ns =
        Return ((data rr, err rr),
                mkSession (Some (mkConn rest (outbox c) (write_failure c) (conn_closed c)))
                          (after_handover rr) (closeChan ns) (closeChanCloser ns)).
Proof.
  intros Hc Hr. split.
  - apply Recv_timer_case.
    + apply (recvChannelizer_nothing_ready now (deadline now timeout)); try assumption.
      * congruence.
      * apply deadline_ge_now.
    + apply recv_select_nothing_ready. exact Hr.
  - intros t rr rest Hread Hin pick2 now2 timeout2 Hlt.
    unfold Recv, recvChannelizer. rewrite Hread, Hc. simpl. rewrite Hin.
    destruct (t <=? now2) eqn:E; simpl.
    + unfold recv_select, offer. simpl.
      rewrite select2_chan; [reflexivity|]. lia.
    + unfold recv_select, offer. rewrite Hread, Hc, Hin.
      rewrite select2_chan; [reflexivity|]. exact Hlt.
Qed.

Lemma Recv_timeout_keeps_frame_witness :
  let frame := mkRecvResult [Byte.x68; Byte.x69] None in
  let c := mkConn [(500, frame)] [] None false in
  let ns := newWebsocketSession (Some c) None in
  Recv ChanCase 0 100 ns = Return (([], Some ErrTimeout), ns) /\
  Recv TimerCase 100 1000 ns =
    Return (([Byte.x68; Byte.x69], None),
            mkSession (Some (mkConn [] [] None false)) Reading None false).
Proof.
  intros frame c ns.
  destruct (Recv_timeout_keeps_frame ChanCase 0 100 ns c eq_refl eq_refl) as [H1 H2].
  split.
  - exact H1.
  - exact (H2 500 frame [] eq_refl eq_refl TimerCase 100 1000 eq_refl).
Defined.

(* ------------------------------------------------------------------ *)
(** ** [WebsocketSession]: [Close] and what follows it *)

Lemma select2_held (pick : fired) (now : Z) (timeout : time.Duration) :
  0 < timeout ->
  fst (select2 pick now (Some now) timeout) = ChanCase.
Proof.
  intros H. apply select2_chan. unfold deadline. lia.
Qed.

(** With all messages there and a positive timeout, [Recv] returns the
    first of the deliveries, or [ErrTimeout] when there is none. *)
Lemma Recv_arrived (pick : fired) (now lo : Z) (timeout : time.Duration)
    (ns : WebsocketSession) :
  arrived_by lo ns -> lo <= now -> 0 < timeout ->
  exists ns',
    Recv pick now timeout ns =
      Return (hd ([], Some ErrTimeout) (deliveries ns), ns') /\
    deliveries ns' = tl (deliveries ns) /\
    arrived_by lo ns'.
Proof.
  intros (c & Hc & Hall) Hlo Hto.
  destruct ns as [co rc cc closer]. simpl in Hc. subst co.
  destruct c as [inb outb wf cl]. simpl in Hall.
  destruct rc as [|rr|].
  - (* Reading *)
    destruct inb as [|[t rr] rest].
    + eexists. split; [reflexivity|]. split; [reflexivity|].
      exists (mkConn [] outb wf cl). split; [reflexivity|constructor].
    + inversion Hall as [|m l Ht Hrest]; subst. simpl in Ht.
      assert (E : (t <=? now) = true) by (apply Z.leb_le; lia).
      unfold Recv, recvChannelizer. simpl. rewrite E. simpl.
      unfold recv_select, offer. simpl. rewrite (select2_held _ _ _ Hto).
      eexists. split; [reflexivity|]. split.
      * unfold deliveries, after_handover. simpl.
        destruct (err rr); reflexivity.
      * exists (mkConn rest outb wf cl). split; [reflexivity|exact Hrest].
  - (* Sending *)
    unfold Recv, recvChannelizer. simpl.
    unfold recv_select, offer. simpl. rewrite (select2_held _ _ _ Hto).
    eexists. split; [reflexivity|]. split.
    + unfold deliveries, after_handover. simpl.
      destruct (err rr); reflexivity.
    + exists (mkConn inb outb wf cl). split; [reflexivity|exact Hall].
  - (* Returned *)
    eexists. split; [reflexivity|]. split; [reflexivity|].
    exists (mkConn inb outb wf cl). split; [reflexivity|exact Hall].
Qed.

Lemma then_timeouts_step (n : nat) (l : list (bytes * option error)) :
  then_timeouts (S n) l = hd ([], Some ErrTimeout) l :: then_timeouts n (tl l).
Proof.
  destruct l; reflexivity.
Qed.

(** So a run of such calls returns the deliveries in order, then
    [ErrTimeout] for ever. *)
Lemma Recv_seq_arrived (lo : Z) (calls : list recv_call) :
  Forall (fun c => lo <= call_tick c /\ 0 < call_timeout c) calls ->
  forall ns : WebsocketSession,
    arrived_by lo ns ->
    exists ns',
      Recv_seq calls ns =
        Return (then_timeouts (List.length calls) (deliveries ns), ns').
Proof.
  induction calls as [|[[pick now] timeout] rest IH]; intros Hcalls ns Harr.
  - exists ns. reflexivity.
  - inversion Hcalls as [|x l [Hlo Hto] Hrest]; subst.
    unfold call_tick, call_timeout in Hlo, Hto. simpl in Hlo, Hto.
    destruct (Recv_arrived pick now lo timeout ns Harr Hlo Hto)
      as (ns1 & HR & Hd & Harr1).
    destruct (IH Hrest ns1 Harr1) as (ns2 & HS).
    exists ns2. cbn [Recv_seq List.length]. rewrite HR. cbn [bind].
    rewrite HS. cbn [bind]. rewrite then_timeouts_step, Hd. reflexivity.
Qed.

Lemma is_closed_head (ch : chanref) (st : chanstore) :
  is_closed (ch :: st) ch = true.
Proof.
  unfold is_closed. simpl. rewrite Nat.eqb_refl. reflexivity.
Qed.

(** A fresh session is [session_ok], the methods keep it so, and on such a
    session [Close] does not panic: it never closes a closed channel. *)
Lemma newWebsocketSession_ok (c : Conn) (closeChan : option chanref) (st : chanstore) :
  (forall ch, closeChan = Some ch -> is_closed st ch = false) ->
  session_ok (newWebsocketSession (Some c) closeChan) st.
Proof.
  intros H. split; [discriminate|]. intros ch Hch _. apply H. exact Hch.
Qed.

Lemma recvChannelizer_ok (now : Z) (ns : WebsocketSession) (st : chanstore) :
  session_ok ns st ->
  exists ns', recvChannelizer now ns = Return ns' /\ session_ok ns' st /\
              closeChan ns' = closeChan ns /\ closeChanCloser ns' = closeChanCloser ns.
Proof.
  intros [Hc Hok]. destruct ns as [[c|] rc cc closer]; simpl in *; [|congruence].
  unfold recvChannelizer. simpl.
  destruct rc as [|rr|]; simpl;
    try (eexists; split; [reflexivity|]; repeat split; try discriminate; assumption).
  destruct (inbox c) as [|[t rr] rest];
    [eexists; split; [reflexivity|]; repeat split; try discriminate; assumption|].
  destruct (t <=? now);
    eexists; (split; [reflexivity|]); repeat split; try discriminate; assumption.
Qed.




(** What [Close] does to the close channel, on any session that is
    [session_ok], open or closed. *)
Lemma Close_effect (now : Z) (buffered : nat) (ns : WebsocketSession) (st : chanstore) :
  session_ok ns st ->
  exists e ns1 st1,
    Close now buffered ns st = Return (e, ns1, st1) /\ session_ok ns1 st1 /\
    ((closeChan ns = None /\ st1 = st /\
      closeChan ns1 = None /\ closeChanCloser ns1 = closeChanCloser ns) \/
     (exists ch, closeChan ns = Some ch /\ closeChanCloser ns = true /\ st1 = st /\
                 closeChan ns1 = Some ch /\ closeChanCloser ns1 = true) \/
     (exists ch, closeChan ns = Some ch /\ closeChanCloser ns = false /\ st1 = ch :: st /\
                 closeChan ns1 = None /\ closeChanCloser ns1 = true)).
Proof.
  intros Hok.
  destruct (recvChannelizer_ok now ns st Hok) as (nsr & Hrun & [Hcr Hokr] & Hcc & Hcl).
  unfold Close. rewrite Hrun. cbn [bind]. rewrite <- Hcc, <- Hcl. clear Hrun Hcc Hcl.
  destruct nsr as [[c|] rc cc closer]; simpl in *; [|congruence].
  assert (Hfin : forall cc' closer' st',
             (forall ch, cc' = Some ch -> closer' = false -> is_closed st' ch = false) ->
             exists e ns1,
               (let '(e, c') := CloseConn now buffered c in
                ns0 <- recvChannelizer now (mkSession (Some c') rc cc' closer') ;;
                Return (e, ns0, st')) = Return (e, ns1, st') /\
               session_ok ns1 st' /\ closeChan ns1 = cc' /\ closeChanCloser ns1 = closer').
  { intros cc' closer' st' H'.
    destruct (CloseConn now buffered c) as [e c'].
    assert (Hs : session_ok (mkSession (Some c') rc cc' closer') st')
      by (split; [discriminate|exact H']).
    destruct (recvChannelizer_ok now _ st' Hs) as (n & Hn & Hokn & Hccn & Hcln).
    rewrite Hn. cbn [bind]. exists e, n. repeat split; try apply Hokn; assumption. }
  destruct cc as [ch|]; [destruct closer|].
  - cbn [bind deref conn recvChan closeChan closeChanCloser].
    destruct (Hfin (Some ch) true st) as (e & ns1 & H1 & H2 & H3 & H4);
      [intros; discriminate|].
    exists e, ns1, st. split; [exact H1|]. split; [exact H2|].
    right. left. exists ch. repeat split; assumption.
  - unfold close. rewrite (Hokr ch eq_refl eq_refl).
    cbn [bind deref conn recvChan closeChan closeChanCloser].
    destruct (Hfin None true (ch :: st)) as (e & ns1 & H1 & H2 & H3 & H4);
      [intros; discriminate|].
    exists e, ns1, (ch :: st). split; [exact H1|]. split; [exact H2|].
    right. right. exists ch. repeat split; assumption.
  - cbn [bind deref conn recvChan closeChan closeChanCloser].
    destruct (Hfin None closer st) as (e & ns1 & H1 & H2 & H3 & H4);
      [intros; discriminate|].
    exists e, ns1, st. split; [exact H1|]. split; [exact H2|].
    left. repeat split; assumption.
Qed.

Lemma Close_keeps_ok (now : Z) (buffered : nat) (ns : WebsocketSession) (st : chanstore) :
  session_ok ns st ->
  exists e ns1 st1, Close now buffered ns st = Return (e, ns1, st1) /\ session_ok ns1 st1.
Proof.
  intros Hok.
  destruct (Close_effect now buffered ns st Hok) as (e & ns1 & st1 & H1 & H2 & _).
  exists e, ns1, st1. split; assumption.
Qed.






(* ------------------------------------------------------------------ *)
(** ** [nodeCfg.Init] *)

Lemma ToLower_localhost_nonempty (s : string) :
  strings.ToLower s = "localhost" -> s <> "".
Proof.
  intros H ->. discriminate H.
Qed.

Section InitProperties.

Variable workceptor_New : Netceptor -> string -> option Workceptor * option error.
Variable RegisterWithControlService : option Workceptor -> ControlSvc -> option error.

(** With the instances made and no error from the work subsystem, [Init]
    returns nil. *)
Lemma Init_instances_ok (cfg : nodeCfg) (id : string) (g : globals)
    (w : option Workceptor) :
  let nc := netceptor_New id (split_AllowedPeers cfg) in
  workceptor_New nc (DataDir cfg) = (w, None) ->
  RegisterWithControlService w (controlsvc_New true nc) = None ->
  Init_instances workceptor_New RegisterWithControlService cfg id g =
    (None, mkGlobals (Some nc) w (Some (controlsvc_New true nc))).
Proof.
  intros nc Hw Hr. unfold Init_instances. fold nc. rewrite Hw. simpl.
  rewrite Hr. reflexivity.
Qed.

Lemma Init_instances_netceptor (cfg : nodeCfg) (id : string) (g : globals) :
  netceptor_MainInstance
    (snd (Init_instances workceptor_New RegisterWithControlService cfg id g))
  = Some (netceptor_New id (split_AllowedPeers cfg)).
Proof.
  unfold Init_instances.
  destruct (workceptor_New _ _) as [w [e|]]; simpl; [reflexivity|].
  destruct (RegisterWithControlService _ _); reflexivity.
Qed.

(** C1.  With an empty ID and the host name [host]: if [host], lower-cased,
    is "localhost" or starts with "localhost.", [Init] returns an error and
    makes no instance; otherwise the netceptor instance is made with [host]
    as its node ID, and [Init] returns nil (unless the work subsystem it
    sets up next reports an error). *)
Theorem Init_defaults_to_hostname (host : string) (cfg : nodeCfg) (g : globals) :
  ID cfg = "" ->
  let lchost := strings.ToLower host in
  let run := Init (host, None) workceptor_New RegisterWithControlService cfg g in
  let nc := netceptor_New host (split_AllowedPeers cfg) in
  (lchost = "localhost" \/ strings.HasPrefix lchost "localhost." = true ->
   run = (Some (Errorf "no node ID specified and local host name is localhost"), g)) /\
  (lchost <> "localhost" -> strings.HasPrefix lchost "localhost." = false ->
   netceptor_MainInstance (snd run) = Some nc /\
   forall w : option Workceptor,
     workceptor_New nc (DataDir cfg) = (w, None) ->
     RegisterWithControlService w (controlsvc_New true nc) = None ->
     run = (None, mkGlobals (Some nc) w (Some (controlsvc_New true nc)))).
Proof.
  intros HID lchost run nc. subst run. unfold Init. rewrite HID.
  change (String.eqb "" "") with true. cbv iota. fold lchost. split.
  - intros [H|H].
    + rewrite H. reflexivity.
    + rewrite H, orb_true_r. reflexivity.
  - intros H1 H2. apply String.eqb_neq in H1. rewrite H1, H2.
    cbn [orb ID AllowedPeers DataDir]. fold lchost. rewrite H1.
    assert (Hp : split_AllowedPeers (mkNodeCfg host (AllowedPeers cfg) (DataDir cfg))
                 = split_AllowedPeers cfg) by reflexivity.
    split.
    + rewrite Init_instances_netceptor, Hp. reflexivity.
    + intros w Hw Hr.
      rewrite (Init_instances_ok (mkNodeCfg host (AllowedPeers cfg) (DataDir cfg)) host g w);
        [reflexivity| |]; cbn [DataDir]; rewrite Hp; assumption.
Qed.

(** C2.  A node ID that lower-cases to "localhost" is rejected: [Init]
    returns the error and makes no instance. *)
Theorem Init_rejects_localhost (os_Hostname : string * option error)
    (cfg : nodeCfg) (g : globals) :
  strings.ToLower (ID cfg) = "localhost" ->
  Init os_Hostname workceptor_New RegisterWithControlService cfg g =
    (Some (Errorf ("node ID " ++ quote ++ "localhost" ++ quote ++ " is reserved")), g).
Proof.
  intros H. unfold Init.
  rewrite (eqb_empty_false _ (ToLower_localhost_nonempty _ H)).
  rewrite H. reflexivity.
Qed.

End InitProperties.

Lemma Init_defaults_to_hostname_witness :
  let wNew := fun (nc : Netceptor) (dir : string) => (Some (mkWorkceptor nc dir), @None error) in
  let reg := fun (_ : option Workceptor) (_ : ControlSvc) => @None error in
  let cfg := mkNodeCfg "" "alpha, beta" "/var/lib/receptor" in
  let nc := netceptor_New "Node1.example.com" ["alpha"; "beta"] in
  Init ("Node1.example.com", None) wNew reg cfg no_instances =
    (None, mkGlobals (Some nc) (Some (mkWorkceptor nc "/var/lib/receptor"))
                     (Some (controlsvc_New true nc))) /\
  Init ("LocalHost.localdomain", None) wNew reg cfg no_instances =
    (Some (Errorf "no node ID specified and local host name is localhost"), no_instances).
Proof.
  intros wNew reg cfg nc. split.
  - destruct (Init_defaults_to_hostname wNew reg "Node1.example.com" cfg no_instances eq_refl)
      as [_ H].
    destruct H as [_ H]; [discriminate|reflexivity|].
    exact (H _ eq_refl eq_refl).
  - destruct (Init_defaults_to_hostname wNew reg "LocalHost.localdomain" cfg no_instances eq_refl)
      as [H _].
    apply H. right. reflexivity.
Defined.

Lemma Init_rejects_localhost_witness :
  let wNew := fun (nc : Netceptor) (dir : string) => (Some (mkWorkceptor nc dir), @None error) in
  let reg := fun (_ : option Workceptor) (_ : ControlSvc) => @None error in
  Init ("node1", None) wNew reg (mkNodeCfg "LocalHost" "" "") no_instances =
    (Some (Errorf ("node ID " ++ quote ++ "localhost" ++ quote ++ " is reserved")),
     no_instances).
Proof.
  intros wNew reg.
  exact (Init_rejects_localhost wNew reg ("node1", None) (mkNodeCfg "LocalHost" "" "")
           no_instances eq_refl).
Defined.

(* ------------------------------------------------------------------ *)
(** ** [main]: the start-up grace window *)

Lemma main_started (p : process) :
  started p -> main p = main_wait p.
Proof.
  intros (Hp & Hw & Hr). unfold main. rewrite Hp, Hw.
  change (negb (String.eqb "" "")) with false. cbv iota.
  destruct Hr as [Hr|Hr].
  - rewrite Hr. reflexivity.
  - rewrite Hr. destruct (negb _); reflexivity.
Qed.

Lemma grace_window : 100 * time.Millisecond = 100000000.
Proof. reflexivity. Qed.

(** C3.  Once start-up has gone through: if the backends are all done
    before the 100 ms of the grace window are over, [main] exits with code 1,
    after the error "All backends have failed" when the backend count is
    positive and after the warning that none were specified when it is
    not; if they are still running when the 100 ms are over, [main] logs
    the end of the initialization and waits for the netceptor: it ends, with
    code 0, only when that is done. *)
Theorem main_grace_window (p : process) :
  started p ->
  (forall t : Z,
     BackendWait p = Some t -> t < 100 * time.Millisecond ->
     exit_code (snd (main p)) = Some 1 /\
     (0 < BackendCount p ->
      main p = ([logger_Error ("All backends have failed. Exiting." ++ nl)], os_Exit 1)) /\
     (BackendCount p <= 0 ->
      main p =
        ([logger_Warning ("Nothing to do - no backends were specified." ++ nl);
          Printf ("Run " ++ hd "" (os_Args p) ++ " --help for command line instructions." ++ nl)],
         os_Exit 1))) /\
  ((BackendWait p = None \/ exists t, BackendWait p = Some t /\ 100 * time.Millisecond < t) ->
   main p = ([logger_Info ("Initialization complete" ++ nl)],
             if NetceptorDone p then main_returns else blocks_forever)).
Proof.
  intros Hs. rewrite (main_started p Hs). unfold main_wait. split.
  - intros t Ht Hlt. rewrite Ht.
    rewrite select2_chan by (unfold deadline; rewrite grace_window in *; lia).
    destruct (0 <? BackendCount p) eqn:E.
    + repeat split. intros H. apply Z.ltb_lt in E. lia.
    + apply Z.ltb_ge in E. repeat split. intros H. lia.
  - intros [H|(t & Ht & Hlt)].
    + rewrite H. reflexivity.
    + rewrite Ht.
      rewrite select2_timer by (unfold deadline; rewrite grace_window in *; lia).
      reflexivity.
Qed.

Lemma main_grace_window_witness :
  let p wait count :=
    mkProcess ["receptor"; "--node"; "id=a"; "--ws-peer"; "ws://b:80"]
              None "" (fun _ => None) wait count false ChanCase in
  main (p (Some 2000000) 1) =
    ([logger_Error ("All backends have failed. Exiting." ++ nl)], os_Exit 1) /\
  main (p (Some 0) 0) =
    ([logger_Warning ("Nothing to do - no backends were specified." ++ nl);
      Printf ("Run receptor --help for command line instructions." ++ nl)], os_Exit 1) /\
  main (p None 1) = ([logger_Info ("Initialization complete" ++ nl)], blocks_forever).
Proof.
  intros p.
  assert (Hs : forall wait count, started (p wait count)).
  { intros wait count. split; [reflexivity|]. split; [reflexivity|]. left. reflexivity. }
  split; [|split].
  - destruct (main_grace_window (p (Some 2000000) 1) (Hs _ _)) as [H _].
    destruct (H 2000000 eq_refl eq_refl) as (_ & H1 & _). apply H1. reflexivity.
  - destruct (main_grace_window (p (Some 0) 0) (Hs _ _)) as [H _].
    destruct (H 0 eq_refl eq_refl) as (_ & _ & H1). apply H1. discriminate.
  - destruct (main_grace_window (p None 1) (Hs _ _)) as [_ H].
    apply H. left. reflexivity.
Defined.

(** The other ways out of [main]: an error of the command line, or an
    exclusive command. *)
Example main_early_exits :
  let p err ran :=
    mkProcess ["receptor"; "--version"] err ran (fun _ => None) None 0 false ChanCase in
  snd (main (p (Some (LibError "bad option")) "")) = os_Exit 1 /\
  snd (main (p None "version")) = os_Exit 0.
Proof. split; reflexivity. Qed.

(* ================================================================== *)
(** * Further properties of the two files *)

(* ------------------------------------------------------------------ *)
(** ** The dial function: when it panics, when it fails *)

Lemma dial_header_good (b : WebsocketDialer) :
  extraHeader b = "" \/ strings.Contains (extraHeader b) ":" = true ->
  exists h, dial_header b = Return h.
Proof.
  intros [H|H].
  - unfold dial_header. rewrite H. eexists. reflexivity.
  - pose proof (Contains_nonempty _ H) as Hne.
    unfold dial_header. rewrite (eqb_empty_false _ Hne), (SplitN_colon_two _ H).
    eexists. reflexivity.
Qed.

Lemma dial_header_bad (b : WebsocketDialer) :
  extraHeader b <> "" -> strings.Contains (extraHeader b) ":" = false ->
  dial_header b = Panic "index out of range".
Proof.
  intros Hne H. unfold dial_header.
  rewrite (eqb_empty_false _ Hne), (SplitN_no_colon _ Hne H). reflexivity.
Qed.

(** X1.  [NewWebsocketDialer] does not look at the extra header, and the
    dial function panics on it exactly when it is non-empty and has no
    colon: [SplitN] then yields one part and part 1 is out of range.  Such a
    dialer panics on every dial, before it reaches [DialContext]; with a
    well-formed header the only other panic is a nil response next to a nil
    error. *)
Theorem dial_panics_exactly
    (b : WebsocketDialer)
    (DialContext : option tlsConfig -> string -> Header -> DialOutcome)
    (closeChan : option chanref) :
  (panics (dial_header b) = true <->
   extraHeader b <> "" /\ strings.Contains (extraHeader b) ":" = false) /\
  (panics (dial b DialContext closeChan) = true <->
   (extraHeader b <> "" /\ strings.Contains (extraHeader b) ":" = false) \/
   exists h, dial_header b = Return h /\
             d_err (DialContext (tlscfg b) (address b) h) = None /\
             d_resp (DialContext (tlscfg b) (address b) h) = None).
Proof.
  destruct (String.eqb (extraHeader b) "") eqn:E.
  - apply String.eqb_eq in E.
    destruct (dial_header_good b (or_introl E)) as [h Hh].
    split.
    + rewrite Hh. simpl. split; [discriminate|]. intros [Hne _]. congruence.
    + unfold dial. rewrite Hh. simpl.
      destruct (d_err (DialContext (tlscfg b) (address b) h)) as [e|] eqn:Ee.
      * simpl. split; [discriminate|].
        intros [[Hne _]|(h' & Hh' & He' & _)]; [congruence|].
        injection Hh' as <-. congruence.
      * destruct (d_resp (DialContext (tlscfg b) (address b) h)) as [r|] eqn:Er; simpl.
        -- split; [discriminate|].
           intros [[Hne _]|(h' & Hh' & _ & Hr')]; [congruence|].
           injection Hh' as <-. congruence.
        -- split; [|reflexivity]. intros _. right. exists h. auto.
  - apply String.eqb_neq in E.
    destruct (strings.Contains (extraHeader b) ":") eqn:EC.
    + destruct (dial_header_good b (or_intror EC)) as [h Hh].
      split.
      * rewrite Hh. simpl. split; [discriminate|]. intros [_ H]. discriminate.
      * unfold dial. rewrite Hh. simpl.
        destruct (d_err (DialContext (tlscfg b) (address b) h)) as [e|] eqn:Ee.
        -- simpl. split; [discriminate|].
           intros [[_ H]|(h' & Hh' & He' & _)]; [discriminate|].
           injection Hh' as <-. congruence.
        -- destruct (d_resp (DialContext (tlscfg b) (address b) h)) as [r|] eqn:Er; simpl.
           ++ split; [discriminate|].
              intros [[_ H]|(h' & Hh' & _ & Hr')]; [discriminate|].
              injection Hh' as <-. congruence.
           ++ split; [|reflexivity]. intros _. right. exists h. auto.
    + pose proof (dial_header_bad b E EC) as Hbad. split.
      * rewrite Hbad. simpl. split; auto.
      * unfold dial. rewrite Hbad. simpl. split; auto.
Qed.

(** When [DialContext] returns an error, the dial function returns
    that error and no session, whatever connection and response come with
    it; no goroutine is started. *)
Theorem dial_error_is_passed_on
    (b : WebsocketDialer)
    (DialContext : option tlsConfig -> string -> Header -> DialOutcome)
    (closeChan : option chanref) (h : Header) (e : error) :
  dial_header b = Return h ->
  d_err (DialContext (tlscfg b) (address b) h) = Some e ->
  dial b DialContext closeChan = Return (AfterDialContext, (None, Some e)).
Proof.
  intros Hh He. unfold dial. rewrite Hh. simpl. rewrite He. reflexivity.
Qed.

Lemma dial_error_is_passed_on_witness :
  let b := mkDialer "ws://peer:8080" "http://peer:8080" true None "k:v" in
  let net := fun (_ : option tlsConfig) (_ : string) (_ : Header) =>
               mkDialOutcome (Some (mkConn [] [] None false)) None
                             (Some (LibError "bad handshake")) in
  dial b net (Some 0%nat) = Return (AfterDialContext, (None, Some (LibError "bad handshake"))).
Proof.
  intros b net.
  exact (dial_error_is_passed_on b net (Some 0%nat) [("k", "v"); ("origin", "http://peer:8080")]
           (LibError "bad handshake") eq_refl eq_refl).
Defined.

(* ------------------------------------------------------------------ *)
(** ** The session under any run of calls *)

Lemma Send_keeps_ok (d : bytes) (ns : WebsocketSession) (st : chanstore) :
  session_ok ns st ->
  exists e ns1,
    Send d ns = Return (e, ns1) /\ session_ok ns1 st /\
    closeChan ns1 = closeChan ns /\ closeChanCloser ns1 = closeChanCloser ns.
Proof.
  intros [Hc Hok].
  destruct ns as [[c|] rc cc closer]; simpl in *; [|congruence].
  unfold Send. simpl.
  destruct (WriteMessage d c) as [[e|] c']; simpl;
    (do 2 eexists; split; [reflexivity|]; repeat split; try discriminate; exact Hok).
Qed.

Lemma Recv_keeps_ok (pick : fired) (now : Z) (timeout : time.Duration)
    (ns : WebsocketSession) (st : chanstore) :
  session_ok ns st ->
  exists r ns1,
    Recv pick now timeout ns = Return (r, ns1) /\ session_ok ns1 st /\
    closeChan ns1 = closeChan ns /\ closeChanCloser ns1 = closeChanCloser ns.
Proof.
  intros Hok.
  destruct (recvChannelizer_ok now ns st Hok) as (nsr & Hrun & [Hcr Hokr] & Hcc & Hcl).
  unfold Recv. rewrite Hrun. cbn [bind]. rewrite <- Hcc, <- Hcl.
  destruct nsr as [[c|] rc cc closer]; simpl in *; [|congruence].
  match goal with
  | |- context [recv_select ?a ?b ?c ?d] => destruct (recv_select a b c d)
  end.
  - unfold offer. simpl. destruct rc as [|rr|]; simpl.
    + destruct (inbox c) as [|[t rr] rest];
        do 2 eexists; (split; [reflexivity|]); repeat split; try discriminate; exact Hokr.
    + do 2 eexists; (split; [reflexivity|]); repeat split; try discriminate; exact Hokr.
    + do 2 eexists; (split; [reflexivity|]); repeat split; try discriminate; exact Hokr.
  - do 2 eexists; (split; [reflexivity|]); repeat split; try discriminate; exact Hokr.
Qed.

Lemma run_calls_closed (calls : list session_call) :
  forall (ns : WebsocketSession) (st : chanstore),
    session_ok ns st ->
    closeChan ns = None \/ closeChanCloser ns = true ->
    exists ns', run_calls calls ns st = Return (ns', st) /\ session_ok ns' st.
Proof.
  induction calls as [|[d|pick now timeout|now buffered] rest IH]; intros ns st Hok Hcl.
  - exists ns. split; [reflexivity|exact Hok].
  - destruct (Send_keeps_ok d ns st Hok) as (e & ns1 & HS & Hok1 & Hcc & Hcr).
    cbn [run_calls]. rewrite HS. cbn [bind]. apply IH; [exact Hok1|].
    rewrite Hcc, Hcr. exact Hcl.
  - destruct (Recv_keeps_ok pick now timeout ns st Hok) as (r & ns1 & HR & Hok1 & Hcc & Hcr).
    cbn [run_calls]. rewrite HR. cbn [bind]. apply IH; [exact Hok1|].
    rewrite Hcc, Hcr. exact Hcl.
  - destruct (Close_effect now buffered ns st Hok) as (e & ns1 & st1 & HC & Hok1 & Heff).
    cbn [run_calls]. rewrite HC. cbn [bind].
    destruct Heff as [(_ & -> & Hn & _) | [(ch & _ & _ & -> & _ & Ht) | (ch & Hs & Hf & _)]].
    + apply IH; [exact Hok1|]. left. exact Hn.
    + apply IH; [exact Hok1|]. right. exact Ht.
    + destruct Hcl; congruence.
Qed.

(** X2.  On a session made by [newWebsocketSession] with a connection and an
    open (or nil) close channel, no run of [Send], [Recv] and [Close] calls
    panics, in whatever order and at whatever ticks; the close channel is
    closed exactly when the run holds a [Close], once, and no other channel
    is touched. *)
Theorem session_calls_never_panic
    (c : Conn) (closeChan0 : option chanref) (st : chanstore)
    (calls : list session_call) :
  (forall ch, closeChan0 = Some ch -> is_closed st ch = false) ->
  exists (ns' : WebsocketSession) (st' : chanstore),
    run_calls calls (newWebsocketSession (Some c) closeChan0) st = Return (ns', st') /\
    session_ok ns' st' /\
    st' = if existsb is_CallClose calls
          then match closeChan0 with
               | Some ch => ch :: st
               | None => st
               end
          else st.
Proof.
  intros Hopen.
  pose proof (newWebsocketSession_ok c closeChan0 st Hopen) as Hok0.
  assert (Hcl0 : closeChanCloser (newWebsocketSession (Some c) closeChan0) = false)
    by reflexivity.
  assert (Hcc0 : closeChan (newWebsocketSession (Some c) closeChan0) = closeChan0)
    by reflexivity.
  revert Hok0 Hcl0 Hcc0.
  generalize (newWebsocketSession (Some c) closeChan0) as ns.
  induction calls as [|[d|pick now timeout|now buffered] rest IH]; intros ns Hok Hcl Hcc.
  - exists ns, st. split; [reflexivity|]. split; [exact Hok|reflexivity].
  - destruct (Send_keeps_ok d ns st Hok) as (e & ns1 & HS & Hok1 & Hcc1 & Hcr1).
    cbn [run_calls existsb is_CallClose orb]. rewrite HS. cbn [bind].
    apply IH; congruence.
  - destruct (Recv_keeps_ok pick now timeout ns st Hok) as (r & ns1 & HR & Hok1 & Hcc1 & Hcr1).
    cbn [run_calls existsb is_CallClose orb]. rewrite HR. cbn [bind].
    apply IH; congruence.
  - destruct (Close_effect now buffered ns st Hok) as (e & ns1 & st1 & HC & Hok1 & Heff).
    cbn [run_calls existsb is_CallClose orb]. rewrite HC. cbn [bind].
    destruct Heff as [(Hn & -> & Hn1 & _) | [(ch & _ & Ht & _) | (ch & Hs & _ & -> & Hn1 & _)]].
    + destruct (run_calls_closed rest ns1 st Hok1 (or_introl Hn1)) as (ns' & HR & Hok').
      exists ns', st. split; [exact HR|]. split; [exact Hok'|].
      rewrite <- Hcc, Hn. reflexivity.
    + congruence.
    + destruct (run_calls_closed rest ns1 (ch :: st) Hok1 (or_introl Hn1)) as (ns' & HR & Hok').
      exists ns', (ch :: st). split; [exact HR|]. split; [exact Hok'|].
      rewrite <- Hcc, Hs. reflexivity.
Qed.

Lemma session_calls_never_panic_witness :
  exists (ns' : WebsocketSession),
    run_calls [CallSend [Byte.x01]; CallClose 5 0; CallRecv ChanCase 6 10; CallClose 7 3;
               CallSend [Byte.x02]; CallClose 8 1]
              (newWebsocketSession (Some (mkConn [] [] None false)) (Some 3%nat)) [1%nat]
    = Return (ns', [3%nat; 1%nat]).
Proof.
  destruct (session_calls_never_panic (mkConn [] [] None false) (Some 3%nat) [1%nat]
              [CallSend [Byte.x01]; CallClose 5 0; CallRecv ChanCase 6 10; CallClose 7 3;
               CallSend [Byte.x02]; CallClose 8 1])
    as (ns' & st' & HR & _ & Hst).
  - intros ch H. injection H as <-. reflexivity.
  - exists ns'. rewrite HR, Hst. reflexivity.
Defined.

(* ------------------------------------------------------------------ *)
(** ** Order of delivery *)

(** X3.  On an open connection without a write failure, a run of [Send]
    calls returns nil each time and writes the messages in the order of the
    calls; the receive side of the session (the goroutine and the unread
    messages) is not touched. *)
Theorem Send_in_order (ds : list bytes) :
  forall (ns : WebsocketSession) (c : Conn),
    conn ns = Some c -> conn_closed c = false -> write_failure c = None ->
    Send_seq ds ns =
      Return (map (fun _ => None) ds,
              mkSession (Some (mkConn (inbox c) (rev ds ++ outbox c) None false))
                        (recvChan ns) (closeChan ns) (closeChanCloser ns)).
Proof.
  induction ds as [|d rest IH]; intros ns c Hc Hcl Hwf.
  - simpl. destruct ns as [co rc cc closer]. simpl in *. subst co.
    destruct c as [inb outb wf cl]. simpl in *. subst. reflexivity.
  - cbn [Send_seq]. unfold Send at 1. rewrite Hc. cbn [deref bind].
    unfold WriteMessage. rewrite Hcl, Hwf. cbn [bind].
    erewrite IH; [|reflexivity|reflexivity|reflexivity].
    cbn [bind map rev recvChan closeChan closeChanCloser inbox outbox].
    rewrite <- app_assoc. reflexivity.
Qed.

Lemma Send_in_order_witness :
  Send_seq [[Byte.x01]; [Byte.x02]; [Byte.x03]]
           (newWebsocketSession (Some (mkConn [(9, mkRecvResult [] None)] [] None false)) None)
  = Return ([None; None; None],
            mkSession (Some (mkConn [(9, mkRecvResult [] None)]
                                    [[Byte.x03]; [Byte.x02]; [Byte.x01]] None false))
                      Reading None false).
Proof.
  exact (Send_in_order [[Byte.x01]; [Byte.x02]; [Byte.x03]]
           (newWebsocketSession (Some (mkConn [(9, mkRecvResult [] None)] [] None false)) None)
           (mkConn [(9, mkRecvResult [] None)] [] None false) eq_refl eq_refl eq_refl).
Defined.

(** X4.  [Recv] hands out the results of the connection's reads in their
    order, each once, up to and including the first read error; after that
    error the goroutine has returned and every further [Recv] returns
    [ErrTimeout].  (Calls made once the messages are there, with positive
    timeouts.) *)
Theorem Recv_delivers_in_order
    (c : Conn) (closeChan0 : option chanref) (lo : Z) (calls : list recv_call) :
  Forall (fun m => fst m <= lo) (inbox c) ->
  Forall (fun k => lo <= call_tick k /\ 0 < call_timeout k) calls ->
  exists ns' : WebsocketSession,
    Recv_seq calls (newWebsocketSession (Some c) closeChan0) =
      Return (then_timeouts (List.length calls) (until_error (map snd (inbox c))), ns').
Proof.
  intros Harr Hcalls.
  destruct (Recv_seq_arrived lo calls Hcalls (newWebsocketSession (Some c) closeChan0))
    as (ns' & H).
  - exists c. split; [reflexivity|exact Harr].
  - exists ns'. exact H.
Qed.

Lemma Recv_delivers_in_order_witness :
  let msg b := mkRecvResult [b] None in
  let eof := mkRecvResult [] (Some (LibError "close 1000 (normal)")) in
  let c := mkConn [(1, msg Byte.x01); (2, msg Byte.x02); (3, eof); (4, msg Byte.x04)]
                  [] None false in
  exists ns' : WebsocketSession,
    Recv_seq [(ChanCase, 10, 5); (ChanCase, 11, 5); (TimerCase, 12, 5);
              (ChanCase, 13, 5); (ChanCase, 14, 5)]
             (newWebsocketSession (Some c) None)
    = Return ([([Byte.x01], None); ([Byte.x02], None);
               ([], Some (LibError "close 1000 (normal)"));
               ([], Some ErrTimeout); ([], Some ErrTimeout)], ns').
Proof.
  intros msg eof c.
  assert (Harr : Forall (fun m => fst m <= 10) (inbox c)).
  { repeat (constructor; [simpl; lia|]). constructor. }
  assert (Hcalls : Forall (fun k => 10 <= call_tick k /\ 0 < call_timeout k)
                     [(ChanCase, 10, 5); (ChanCase, 11, 5); (TimerCase, 12, 5);
                      (ChanCase, 13, 5); (ChanCase, 14, 5)]).
  { repeat (constructor; [unfold call_tick, call_timeout; simpl; lia|]). constructor. }
  destruct (Recv_delivers_in_order c None 10 _ Harr Hcalls) as (ns' & H).
  exists ns'. exact H.
Defined.

(* ------------------------------------------------------------------ *)
(** ** The listener's [Start] *)

Lemma sessions_sent_upgraded (requests : list (option Conn * option error)) :
  sessions_sent (map upgrade_handler requests) =
    map (fun conn => newWebsocketSession conn None) (upgraded requests).
Proof.
  induction requests as [|[conn [e|]] rest IH]; simpl.
  - reflexivity.
  - exact IH.
  - rewrite IH. reflexivity.
Qed.

Lemma upgraded_Permutation (l l' : list (option Conn * option error)) :
  Permutation l l' -> Permutation (upgraded l) (upgraded l').
Proof.
  intros H. induction H as [|[c [e|]] l l' H IH|[c1 [e1|]] [c2 [e2|]] l|l l' l'' H1 IH1 H2 IH2];
    simpl.
  - constructor.
  - exact IH.
  - apply perm_skip. exact IH.
  - apply Permutation_refl.
  - apply Permutation_refl.
  - apply Permutation_refl.
  - apply perm_swap.
  - exact (Permutation_trans IH1 IH2).
Qed.

(** X5.  [WebsocketListener.Start] panics, before it listens, when the path
    is empty or is no pattern that the mux accepts; the path "/" of a new
    listener is replaced by whatever [SetPath] was given.  Otherwise it
    fails exactly when [net.Listen] does, and then hands out no channel; and
    when it succeeds, [Addr], nil until then, is the bound listener, the path
    is the one set before, and the sessions sent are one new session, with
    a nil close channel, for each request whose upgrade succeeds, none lost
    and none twice, in the order in which the handlers get to send; a failed
    upgrade sends nothing. *)
Theorem listener_Start_sessions
    (ServeMux_accepts : string -> bool)
    (address p : string) (tlscfg : option tlsConfig)
    (net_Listen : string -> string -> option string * option error)
    (requests handled : list (option Conn * option error)) :
  Permutation requests handled ->
  exists b0 : WebsocketListener,
    NewWebsocketListener address tlscfg = (Some b0, None) /\
    Addr b0 = None /\ Path b0 = "/" /\
    let run := WebsocketListener_Start ServeMux_accepts (SetPath p b0) net_Listen handled in
    if String.eqb p "" || negb (ServeMux_accepts p)
    then run = Panic "http: invalid pattern"
    else
      exists sessChan err b',
        run = Return (sessChan, err, b') /\
        err = snd (net_Listen "tcp" address) /\
        (err <> None -> sessChan = None) /\
        (err = None ->
         Addr b' = fst (net_Listen "tcp" address) /\ Path b' = p /\
         exists evs, sessChan = Some evs /\
           sessions_sent evs =
             map (fun conn => newWebsocketSession conn None) (upgraded handled) /\
           Permutation (sessions_sent evs)
             (map (fun conn => newWebsocketSession conn None) (upgraded requests)) /\
           Forall (fun ns => closeChan ns = None /\ recvChan ns = Reading)
                  (sessions_sent evs)).
Proof.
  intros Hperm.
  eexists. split; [reflexivity|]. split; [reflexivity|]. split; [reflexivity|].
  cbv zeta. unfold WebsocketListener_Start, mux_HandleFunc, SetPath. simpl.
  destruct (String.eqb p "") eqn:Ep; [reflexivity|].
  destruct (ServeMux_accepts p) eqn:Ea; simpl; [|reflexivity].
  destruct (net_Listen "tcp" address) as [l [e|]]; simpl.
  - do 3 eexists. split; [reflexivity|]. split; [reflexivity|].
    split; [reflexivity|]. intros H. discriminate.
  - do 3 eexists. split; [reflexivity|]. split; [reflexivity|].
    split; [congruence|]. intros _.
    split; [destruct l; reflexivity|]. split; [reflexivity|].
    eexists. split; [reflexivity|]. split; [apply sessions_sent_upgraded|].
    rewrite sessions_sent_upgraded. split.
    + apply Permutation_map, Permutation_sym, upgraded_Permutation. exact Hperm.
    + apply Forall_forall.
      intros ns Hin. apply in_map_iff in Hin. destruct Hin as (conn & <- & _).
      split; reflexivity.
Qed.

(** Three requests, the second with a failed upgrade, handled in another
    order than they came; and an empty path. *)
Lemma listener_Start_sessions_witness :
  let c n := Some (mkConn [] [[n]] None false) in
  let r1 := (c Byte.x01, @None error) in
  let r2 := (@None Conn, Some (LibError "not a websocket handshake")) in
  let r3 := (c Byte.x03, @None error) in
  let listen := fun (_ addr : string) => (Some addr, @None error) in
  let b := mkListener "0.0.0.0:80" "/mesh" None None None in
  WebsocketListener_Start (fun _ => true) b listen [r3; r1; r2] =
    Return (Some [SessionSent (newWebsocketSession (c Byte.x03) None);
                  SessionSent (newWebsocketSession (c Byte.x01) None);
                  UpgradeFailed ("Error upgrading websocket connection: "
                                 ++ "not a websocket handshake" ++ nl)],
            None,
            mkListener "0.0.0.0:80" "/mesh" None (Some "0.0.0.0:80") (Some "0.0.0.0:80")) /\
  WebsocketListener_Start (fun _ => true) (SetPath "" b) listen [r1] =
    Panic "http: invalid pattern".
Proof.
  intros c r1 r2 r3 listen b.
  assert (HP : Permutation [r1; r2; r3] [r3; r1; r2]).
  { apply (Permutation_trans (l' := [r1; r3; r2])).
    - apply perm_skip. apply perm_swap.
    - apply perm_swap. }
  destruct (listener_Start_sessions (fun _ => true) "0.0.0.0:80" "/mesh" None listen
              [r1; r2; r3] [r3; r1; r2] HP) as (b0 & Hb0 & _ & _ & H).
  injection Hb0 as <-. cbv zeta in H. cbn [String.eqb orb negb] in H.
  split; [|reflexivity].
  destruct H as (sessChan & err & b' & Hrun & _). reflexivity.
Defined.

(* ------------------------------------------------------------------ *)
(** ** From a configuration to a backend *)

Section SetupProperties.

Variable url_Parse : string -> URL + error.
Variable TLSConfig : ServerConf -> option tlsConfig * option error.
Variable validateDialCost : option float -> float * option error.
Variable AddBackend_dialer : option WebsocketDialer -> float -> option error.
Variable GetClientTLSConfig : string -> string -> string -> option tlsConfig * option error.

(** X6.  [WSDial.setup] rejects an extra header that is set but empty, or
    that has no colon, with [ErrInvalidHTTPHeader] (wrapped), before it
    looks at anything else: no TLS configuration is made, no dialer is
    constructed, no backend is added.  (The command-line [Prepare] accepts
    the empty header: there it stands for none.) *)
Theorem WSDial_setup_rejects_header (c : WSDial) (h : string) :
  wd_ExtraHeader c = Some h ->
  h = "" \/ strings.Contains h ":" = false ->
  WSDial_setup url_Parse TLSConfig validateDialCost AddBackend_dialer c =
    (None, Some (Wrapf ("invalid ws parameters for ws listener " ++ wd_Address c ++ ": ")
                       ErrInvalidHTTPHeader)).
Proof.
  intros Hh Hbad. unfold WSDial_setup. rewrite Hh.
  assert (E : String.eqb h "" || negb (strings.Contains h ":") = true).
  { destruct Hbad as [->|H]; [reflexivity|]. rewrite H. apply orb_true_r. }
  rewrite E. reflexivity.
Qed.

(** X7.  When [WSDial.setup] returns nil it has added a dialer for the
    configured address that redials unless [NoRedial] is set and carries the
    configured extra header (none when it is not set); that dialer's header
    splitting is in bounds, so its dial function does not panic on it. *)
Theorem WSDial_setup_dialer (c : WSDial) (ob : option WebsocketDialer) :
  WSDial_setup url_Parse TLSConfig validateDialCost AddBackend_dialer c = (ob, None) ->
  exists b : WebsocketDialer,
    ob = Some b /\
    address b = wd_Address c /\
    redial b = negb (NoRedial c) /\
    extraHeader b = match wd_ExtraHeader c with Some h => h | None => "" end /\
    panics (dial_header b) = false.
Proof.
  intros H.
  assert (Hb : exists b, ob = Some b /\
                 exists t, NewWebsocketDialer url_Parse (wd_Address c) t
                             match wd_ExtraHeader c with Some h => h | None => "" end
                             (negb (NoRedial c)) = (Some b, None)).
  { unfold WSDial_setup in H.
    destruct (wd_ExtraHeader c) as [h|].
    - destruct (String.eqb h "" || negb (strings.Contains h ":")); [discriminate|].
      destruct (match wd_TLS c with Some t => TLSConfig t | None => (None, None) end)
        as [t [e1|]]; [discriminate|].
      destruct (NewWebsocketDialer _ _ _ _ _) as [b' [e2|]] eqn:EN; [discriminate|].
      destruct (validateDialCost (wd_Cost c)) as [cost [e3|]]; [discriminate|].
      destruct (AddBackend_dialer b' cost); [discriminate|].
      injection H as <-.
      pose proof EN as EN'. unfold NewWebsocketDialer in EN'.
      destruct (url_Parse (wd_Address c)); [|discriminate].
      injection EN' as <-. eexists. split; [reflexivity|]. exists t. exact EN.
    - destruct (match wd_TLS c with Some t => TLSConfig t | None => (None, None) end)
        as [t [e1|]]; [discriminate|].
      destruct (NewWebsocketDialer _ _ _ _ _) as [b' [e2|]] eqn:EN; [discriminate|].
      destruct (validateDialCost (wd_Cost c)) as [cost [e3|]]; [discriminate|].
      destruct (AddBackend_dialer b' cost); [discriminate|].
      injection H as <-.
      pose proof EN as EN'. unfold NewWebsocketDialer in EN'.
      destruct (url_Parse (wd_Address c)); [|discriminate].
      injection EN' as <-. eexists. split; [reflexivity|]. exists t. exact EN. }
  destruct Hb as (b & -> & t & HN).
  destruct (NewWebsocketDialer_extraHeader _ _ _ _ _ _ _ HN) as (Hh & Hr & Ha).
  exists b. repeat split; try assumption.
  assert (Hgood : extraHeader b = "" \/ strings.Contains (extraHeader b) ":" = true).
  { destruct (String.eqb (extraHeader b) "") eqn:E.
    - left. apply String.eqb_eq. exact E.
    - right. apply String.eqb_neq in E.
      exact (WSDial_setup_checks_header _ _ _ _ c b None H E). }
  destruct (dial_header_good b Hgood) as [hd Hhd]. rewrite Hhd. reflexivity.
Qed.

(** X8.  After a [Prepare] that returns nil, [websocketDialerCfg.Run] cannot
    fail on the address: it asks for the TLS configuration named in the
    configuration, or "default" for a [wss] address without a name, returns
    that call's error if there is one, and otherwise hands [AddBackend] a
    dialer with the configured header and redial flag whose header splitting
    is in bounds, returning what [AddBackend] returns. *)
Theorem Prepare_then_Run (cfg : websocketDialerCfg) :
  websocketDialerCfg_Prepare url_Parse cfg = None ->
  exists u : URL,
    url_Parse (Address cfg) = inl u /\
    let name := if String.eqb (Scheme u) "wss" && String.eqb (dc_TLS cfg) ""
                then "default" else dc_TLS cfg in
    match GetClientTLSConfig name (Hostname u) "dns" with
    | (_, Some e) =>
        websocketDialerCfg_Run url_Parse AddBackend_dialer GetClientTLSConfig cfg
        = (None, Some e)
    | (t, None) =>
        exists b : WebsocketDialer,
          websocketDialerCfg_Run url_Parse AddBackend_dialer GetClientTLSConfig cfg
          = (Some b, AddBackend_dialer (Some b) (dc_Cost cfg)) /\
          address b = Address cfg /\ tlscfg b = t /\
          extraHeader b = ExtraHeader cfg /\ redial b = Redial cfg /\
          panics (dial_header b) = false
    end.
Proof.
  intros HP.
  assert (Hu : exists u, url_Parse (Address cfg) = inl u).
  { unfold websocketDialerCfg_Prepare in HP.
    destruct (dc_Cost cfg <=? 0)%float; [discriminate|].
    destruct (url_Parse (Address cfg)) as [u|e]; [exists u; reflexivity|discriminate]. }
  destruct Hu as [u Hu]. exists u. split; [exact Hu|]. cbv zeta.
  unfold websocketDialerCfg_Run, NewWebsocketDialer. rewrite Hu.
  destruct (GetClientTLSConfig _ (Hostname u) "dns") as [t [e|]]; [reflexivity|].
  eexists. split; [reflexivity|]. cbn [address tlscfg extraHeader redial].
  repeat split.
  assert (Hgood : ExtraHeader cfg = "" \/ strings.Contains (ExtraHeader cfg) ":" = true).
  { destruct (String.eqb (ExtraHeader cfg) "") eqn:E.
    - left. apply String.eqb_eq. exact E.
    - right. apply String.eqb_neq in E. exact (Prepare_checks_header _ cfg HP E). }
  match goal with
  | |- panics (dial_header ?b) = false =>
      destruct (dial_header_good b Hgood) as [hd Hhd]; rewrite Hhd; reflexivity
  end.
Qed.

End SetupProperties.

Lemma WSDial_setup_rejects_header_witness :
  WSDial_setup (fun _ => inl (mkURL "ws" "peer:80" "peer")) (fun _ => (None, None))
               (fun _ => (1%float, None)) (fun _ _ => None)
               (mkWSDial None "ws://peer:80" None false (Some ""))
  = (None, Some (Wrapf "invalid ws parameters for ws listener ws://peer:80: "
                       ErrInvalidHTTPHeader)).
Proof.
  exact (WSDial_setup_rejects_header (fun _ => inl (mkURL "ws" "peer:80" "peer"))
           (fun _ => (None, None)) (fun _ => (1%float, None)) (fun _ _ => None)
           (mkWSDial None "ws://peer:80" None false (Some "")) "" eq_refl (or_introl eq_refl)).
Defined.

Lemma WSDial_setup_dialer_witness :
  exists b : WebsocketDialer,
    redial b = false /\ extraHeader b = "k: v" /\ origin b = "https://peer:443" /\
    panics (dial_header b) = false.
Proof.
  destruct (WSDial_setup_dialer (fun _ => inl (mkURL "wss" "peer:443" "peer"))
              (fun _ => (None, None)) (fun _ => (1%float, None)) (fun _ _ => None)
              (mkWSDial None "wss://peer:443" None true (Some "k: v"))
              (Some (mkDialer "wss://peer:443" "https://peer:443" false None "k: v"))
              eq_refl)
    as (b & Hb & _ & Hr & Hh & Hp).
  exists b. injection Hb as <-. split; [reflexivity|]. split; [reflexivity|].
  split; [reflexivity|exact Hp].
Defined.

Lemma Prepare_then_Run_witness :
  websocketDialerCfg_Run (fun _ => inl (mkURL "wss" "peer:443" "peer")) (fun _ _ => None)
    (fun name _ _ => (Some (TLSClientOrServer name), None))
    (mkDialerCfg "wss://peer:443" true "" "" 1%float)
  = (Some (mkDialer "wss://peer:443" "https://peer:443" true
                    (Some (TLSClientOrServer "default")) ""), None).
Proof.
  destruct (Prepare_then_Run (fun _ => inl (mkURL "wss" "peer:443" "peer")) (fun _ _ => None)
              (fun name _ _ => (Some (TLSClientOrServer name), None))
              (mkDialerCfg "wss://peer:443" true "" "" 1%float) eq_refl)
    as (u & Hu & H).
  injection Hu as <-. cbv zeta in H. simpl in H.
  destruct H as (b & HR & _). reflexivity.
Defined.

(** X9.  [WSListen.setup] returns nil exactly when the TLS configuration (if
    one is named) is made, the costs are valid and [AddBackend] accepts the
    listener; that listener has the configured address and the configured
    path, or "/" when none is configured.  The error "could not create ws
    listener" is never returned, since [NewWebsocketListener] cannot fail. *)
Theorem WSListen_setup_succeeds_iff
    (TLSConfig : ServerConf -> option tlsConfig * option error)
    (validateListenerCost : option float -> costmap -> float * costmap * option error)
    (AddBackend_listener : option WebsocketListener -> float -> costmap -> option error)
    (c : WSListen) :
  let tls := match wl_TLS c with Some t => TLSConfig t | None => (None, None) end in
  let l := mkListener (wl_Address c)
                      (match wl_Path c with Some p => p | None => "/" end)
                      (fst tls) None None in
  (WSListen_setup TLSConfig validateListenerCost AddBackend_listener c = Return None <->
   snd tls = None /\
   exists cost nodeCosts,
     validateListenerCost (wl_Cost c) (NodeCosts c) = (cost, nodeCosts, None) /\
     AddBackend_listener (Some l) cost nodeCosts = None) /\
  (forall e : error,
     WSListen_setup TLSConfig validateListenerCost AddBackend_listener c <>
       Return (Some (Wrapf ("could not create ws listener for " ++ wl_Address c
                            ++ " from config: ") e))).
Proof.
  intros tls l. subst l. unfold WSListen_setup. fold tls.
  destruct tls as [tlsConf [e1|]]; simpl.
  - split.
    + split; [discriminate|]. intros [H _]. discriminate.
    + intros e H. discriminate.
  - unfold SetPath. simpl.
    destruct (validateListenerCost (wl_Cost c) (NodeCosts c)) as [[cost nodeCosts] [e2|]] eqn:EV.
    + split.
      * destruct (wl_Path c); simpl; (split; [discriminate|]);
          intros [_ (cost' & nodeCosts' & H & _)]; discriminate.
      * intros e H. destruct (wl_Path c); simpl in H; discriminate.
    + split.
      * destruct (wl_Path c) as [p|]; simpl;
          (destruct (AddBackend_listener _ cost nodeCosts) as [e3|] eqn:EA;
           [ split; [discriminate|];
             intros [_ (cost' & nodeCosts' & H & HA)]; injection H as <- <-; congruence
           | split; [|reflexivity]; intros _; split; [reflexivity|];
             exists cost, nodeCosts; split; [reflexivity|exact EA] ]).
      * intros e H.
        destruct (wl_Path c) as [p|]; simpl in H;
          destruct (AddBackend_listener _ cost nodeCosts); discriminate.
Qed.

(* ------------------------------------------------------------------ *)
(** ** [Init]: which instances it leaves behind *)

Section InitEffects.

Variable workceptor_New : Netceptor -> string -> option Workceptor * option error.
Variable RegisterWithControlService : option Workceptor -> ControlSvc -> option error.

Lemma Init_rejected (os_Hostname : string * option error) (cfg : nodeCfg) (g : globals) :
  ID_rejected os_Hostname cfg = true ->
  exists e, Init os_Hostname workceptor_New RegisterWithControlService cfg g = (Some e, g).
Proof.
  unfold ID_rejected, localhost_name, Init. destruct os_Hostname as [host herr]. simpl.
  destruct (String.eqb (ID cfg) "").
  - destruct herr as [e|]; [intros _; eexists; reflexivity|].
    intros H. rewrite H. eexists. reflexivity.
  - intros H. rewrite H. eexists. reflexivity.
Qed.

Lemma Init_accepted (os_Hostname : string * option error) (cfg : nodeCfg) (g : globals) :
  ID_rejected os_Hostname cfg = false ->
  Init os_Hostname workceptor_New RegisterWithControlService cfg g =
    Init_instances workceptor_New RegisterWithControlService
      (mkNodeCfg (effective_ID os_Hostname cfg) (AllowedPeers cfg) (DataDir cfg))
      (effective_ID os_Hostname cfg) g.
Proof.
  unfold ID_rejected, localhost_name, effective_ID, Init.
  destruct os_Hostname as [host herr]. simpl.
  destruct (String.eqb (ID cfg) "") eqn:E.
  - destruct herr as [e|]; [discriminate|]. intros H. rewrite H. simpl.
    apply orb_false_elim in H. destruct H as [H _]. rewrite H. reflexivity.
  - intros H. rewrite H. destruct cfg as [id peers dir]. reflexivity.
Qed.

(** X10.  [Init] either rejects the node ID and leaves the three package
    variables as they were, or it assigns [netceptor.MainInstance], made
    from the effective ID and the allowed peers, and then
    [workceptor.MainInstance] with whatever [workceptor.New] returns: when
    that call fails, [Init] returns its error with the netceptor instance
    assigned and no control service made; otherwise the control service is
    made and [Init] returns what the registration returns. *)
Theorem Init_instances_left
    (os_Hostname : string * option error) (cfg : nodeCfg) (g : globals) :
  let run := Init os_Hostname workceptor_New RegisterWithControlService cfg g in
  let nc := netceptor_New (effective_ID os_Hostname cfg) (split_AllowedPeers cfg) in
  let cs := controlsvc_New true nc in
  if ID_rejected os_Hostname cfg
  then fst run <> None /\ snd run = g
  else
    match workceptor_New nc (DataDir cfg) with
    | (w, Some e) =>
        run = (Some e, mkGlobals (Some nc) w (controlsvc_MainInstance g))
    | (w, None) =>
        run = (RegisterWithControlService w cs, mkGlobals (Some nc) w (Some cs))
    end.
Proof.
  intros run nc cs. subst run.
  destruct (ID_rejected os_Hostname cfg) eqn:E.
  - destruct (Init_rejected os_Hostname cfg g E) as [e He]. rewrite He.
    split; [discriminate|reflexivity].
  - rewrite (Init_accepted os_Hostname cfg g E). unfold Init_instances.
    change (split_AllowedPeers (mkNodeCfg (effective_ID os_Hostname cfg)
                                          (AllowedPeers cfg) (DataDir cfg)))
      with (split_AllowedPeers cfg).
    fold nc. cbn [DataDir].
    destruct (workceptor_New nc (DataDir cfg)) as [w [e|]]; simpl; [reflexivity|].
    fold cs. destruct (RegisterWithControlService w cs); reflexivity.
Qed.

(** X11.  With a configured ID that is not the reserved one, [Init] does
    not depend on the host name, not even on whether there is one, and the
    netceptor gets the ID as it is written, capitals included. *)
Theorem Init_explicit_ID
    (h1 h2 : string * option error) (cfg : nodeCfg) (g : globals) :
  ID cfg <> "" ->
  strings.ToLower (ID cfg) <> "localhost" ->
  Init h1 workceptor_New RegisterWithControlService cfg g =
    Init h2 workceptor_New RegisterWithControlService cfg g /\
  netceptor_MainInstance (snd (Init h1 workceptor_New RegisterWithControlService cfg g)) =
    Some (netceptor_New (ID cfg) (split_AllowedPeers cfg)).
Proof.
  intros Hne Hres.
  assert (Hrej : forall h, ID_rejected h cfg = false).
  { intros h. unfold ID_rejected. rewrite (eqb_empty_false _ Hne).
    apply String.eqb_neq. exact Hres. }
  assert (Heff : forall h, effective_ID h cfg = ID cfg).
  { intros h. unfold effective_ID. rewrite (eqb_empty_false _ Hne). reflexivity. }
  rewrite (Init_accepted h1 cfg g (Hrej h1)), (Init_accepted h2 cfg g (Hrej h2)).
  rewrite !Heff. split; [reflexivity|].
  rewrite Init_instances_netceptor. reflexivity.
Qed.

End InitEffects.

Lemma Init_explicit_ID_witness :
  let wNew := fun (nc : Netceptor) (dir : string) => (@None Workceptor, Some (LibError "no dir")) in
  let reg := fun (_ : option Workceptor) (_ : ControlSvc) => @None error in
  Init ("localhost", None) wNew reg (mkNodeCfg "Node-A" "b" "") no_instances =
    (Some (LibError "no dir"),
     mkGlobals (Some (netceptor_New "Node-A" ["b"])) None None).
Proof.
  intros wNew reg.
  destruct (Init_explicit_ID wNew reg ("localhost", None) ("", Some (LibError "no host name"))
              (mkNodeCfg "Node-A" "b" "") no_instances) as [H _].
  - discriminate.
  - discriminate.
  - rewrite H. reflexivity.
Defined.

(* ------------------------------------------------------------------ *)
(** ** [main]: the configuration file, the reload and the exit code *)

Lemma find_configPath_skips (pre rest : list string) :
  Forall (fun a => is_config_flag a = false) pre ->
  find_configPath (pre ++ rest) = find_configPath rest.
Proof.
  induction pre as [|a pre IH]; intros H; [reflexivity|].
  inversion H as [|x l Ha Hpre]; subst. unfold is_config_flag in Ha.
  cbn [app find_configPath]. rewrite Ha. apply IH. exact Hpre.
Qed.

(** X12.  The configuration path that [main] finds is the argument after the
    first "--config" or "-c", whatever that argument is; it is empty when
    that flag is the last argument and when there is no such flag.  Later
    flags are not looked at. *)
Theorem find_configPath_first_flag (pre : list string) :
  Forall (fun a => is_config_flag a = false) pre ->
  find_configPath pre = "" /\
  forall flag : string,
    is_config_flag flag = true ->
    find_configPath (pre ++ [flag]) = "" /\
    forall (value : string) (post : list string),
      find_configPath (pre ++ flag :: value :: post) = value.
Proof.
  intros Hpre. split.
  - rewrite <- (app_nil_r pre). rewrite (find_configPath_skips pre [] Hpre). reflexivity.
  - intros flag Hflag. unfold is_config_flag in Hflag. split.
    + rewrite (find_configPath_skips pre [flag] Hpre). cbn [find_configPath].
      rewrite Hflag. reflexivity.
    + intros value post. rewrite (find_configPath_skips pre _ Hpre).
      cbn [find_configPath]. rewrite Hflag. reflexivity.
Qed.

Lemma find_configPath_first_flag_witness :
  find_configPath ["--node"; "id=a"; "-c"; "/etc/receptor.conf"; "--config"; "other"]
  = "/etc/receptor.conf" /\
  find_configPath ["--node"; "id=a"; "--config"] = "" /\
  find_configPath ["--config"; "-c"; "x"] = "-c".
Proof.
  assert (H2 : Forall (fun a => is_config_flag a = false) ["--node"; "id=a"]).
  { repeat constructor. }
  destruct (find_configPath_first_flag ["--node"; "id=a"] H2) as [_ H].
  split; [|split].
  - exact (proj2 (H "-c" eq_refl) "/etc/receptor.conf" ["--config"; "other"]).
  - exact (proj1 (H "--config" eq_refl)).
  - destruct (find_configPath_first_flag [] (Forall_nil _)) as [_ H0].
    exact (proj2 (H0 "--config" eq_refl) "-c" ["x"]).
Defined.

(** X13.  When the command line has run without error and no exclusive
    command ran: with a configuration path, an error of
    [controlsvc.InitReload] ends [main] with "Error: ..." and exit code 1
    before any wait on the backends; without one, [InitReload] is not
    called, so [main] goes on to the grace window whatever it would
    return. *)
Theorem main_reload (p : process) :
  ParseAndRun p = None ->
  WhatRan p = "" ->
  let configPath := find_configPath (tl (os_Args p)) in
  (configPath = "" -> main p = main_wait p) /\
  (configPath <> "" ->
   match InitReload p configPath with
   | Some e => main p = ([Printf ("Error: " ++ Error e ++ nl)], os_Exit 1)
   | None => main p = main_wait p
   end).
Proof.
  intros Hp Hw configPath. subst configPath. unfold main. rewrite Hp, Hw.
  change (negb (String.eqb "" "")) with false. cbv iota. split.
  - intros H. rewrite H. reflexivity.
  - intros H. rewrite (eqb_empty_false _ H). simpl.
    destruct (InitReload p (find_configPath (tl (os_Args p)))); reflexivity.
Qed.

Lemma main_reload_witness :
  main (mkProcess ["receptor"; "-c"; "missing.conf"] None ""
                  (fun path => Some (LibError ("open " ++ path ++ ": no such file")))
                  None 0 false ChanCase)
  = ([Printf ("Error: open missing.conf: no such file" ++ nl)], os_Exit 1).
Proof.
  destruct (main_reload (mkProcess ["receptor"; "-c"; "missing.conf"] None ""
                           (fun path => Some (LibError ("open " ++ path ++ ": no such file")))
                           None 0 false ChanCase) eq_refl eq_refl) as [_ H].
  apply H. discriminate.
Defined.

(** X14.  [main] ends with exit code 0 or 1 only.  It is 1 whenever the
    command line fails, whenever the reload cannot be set up and whenever
    the backends are done within the grace window; it is 0 only when an
    exclusive command ran or when, after the grace window, the netceptor is
    done. *)
Theorem main_exit_codes (p : process) (code : Z) :
  exit_code (snd (main p)) = Some code ->
  (code = 0 \/ code = 1) /\
  (ParseAndRun p <> None -> code = 1) /\
  (code = 0 ->
   ParseAndRun p = None /\
   (WhatRan p <> "" \/
    (NetceptorDone p = true /\
     fst (select2 (select_pick p) 0 (BackendWait p) (100 * time.Millisecond)) = TimerCase))).
Proof.
  assert (One : forall P Q : Prop, (1 = 0 \/ 1 = 1) /\ (P -> 1 = 1) /\ (1 = 0 -> Q)).
  { intros P Q. split; [right; reflexivity|]. split; [reflexivity|].
    intros H. discriminate H. }
  unfold main.
  destruct (ParseAndRun p) as [e|] eqn:EP.
  - simpl. intros H. injection H as <-. apply One.
  - destruct (String.eqb (WhatRan p) "") eqn:EW; simpl.
    + destruct (if negb (String.eqb (find_configPath (tl (os_Args p))) "")
                then InitReload p (find_configPath (tl (os_Args p))) else None) as [e|].
      * simpl. intros H. injection H as <-. apply One.
      * unfold main_wait.
        destruct (fst (select2 (select_pick p) 0 (BackendWait p) (100 * time.Millisecond)))
          eqn:ES.
        -- destruct (0 <? BackendCount p); simpl; intros H; injection H as <-; apply One.
        -- destruct (NetceptorDone p) eqn:EN; simpl; [|discriminate].
           intros H. injection H as <-.
           split; [left; reflexivity|]. split; [congruence|].
           intros _. split; [reflexivity|]. right. split; [reflexivity|exact ES].
    + apply String.eqb_neq in EW. intros H. injection H as <-.
      split; [left; reflexivity|]. split; [congruence|].
      intros _. split; [reflexivity|]. left. exact EW.
Qed.

Lemma main_exit_codes_witness :
  let p := mkProcess ["receptor"; "--version"] None "version"
                     (fun _ => None) None 0 false ChanCase in
  exit_code (snd (main p)) = Some 0 /\
  (ParseAndRun p = None /\
   (WhatRan p <> "" \/
    (NetceptorDone p = true /\
     fst (select2 (select_pick p) 0 (BackendWait p) (100 * time.Millisecond)) = TimerCase))).
Proof.
  intros p. split; [reflexivity|].
  exact (proj2 (proj2 (main_exit_codes p 0 eq_refl)) eq_refl).
Defined.

(* ------------------------------------------------------------------ *)
(** ** The Unix socket proxies *)

Lemma inbound_loop_bridged (turns : list proxy_turn) :
  bridged (inbound_loop turns) = connected turns.
Proof.
  induction turns as [|[e|c [d|e]] rest IH]; simpl; try reflexivity.
  - rewrite IH. reflexivity.
  - exact IH.
Qed.

Lemma outbound_loop_bridged (turns : list proxy_turn) :
  bridged (outbound_loop turns) = connected turns.
Proof.
  induction turns as [|[e|c [d|e]] rest IH]; simpl; try reflexivity.
  - rewrite IH. reflexivity.
  - exact IH.
Qed.

(** X15.  [UnixProxyServiceInbound] bridges, in order, exactly the accepted
    connections whose dial into the Receptor network succeeds, up to the
    first failed [Accept]: a failed dial skips one connection and the loop
    goes on, a failed [Accept] ends it.  If the lock, the removal of the
    socket file or the listener fails, nothing is bridged; the socket file
    is removed only once the lock on [filename.lock] is held. *)
Theorem UnixProxyServiceInbound_bridges
    (filename : string) (lock_err remove_err listen_err : option error)
    (turns : list proxy_turn) :
  let run := UnixProxyServiceInbound filename lock_err remove_err listen_err turns in
  bridged run =
    match lock_err, remove_err, listen_err with
    | None, None, None => connected turns
    | _, _, _ => []
    end /\
  hd_error run = Some (TryLock (filename ++ ".lock")) /\
  (In (os_RemoveAll filename) run <-> lock_err = None) /\
  (In (net_Listen_unix filename) run <-> lock_err = None /\ remove_err = None).
Proof.
  intros run. subst run. unfold UnixProxyServiceInbound.
  assert (Hloop : forall ev, In ev (inbound_loop turns) ->
                    match ev with
                    | debug_Printf _ | BridgeConns _ _ => True
                    | _ => False
                    end).
  { induction turns as [|[e|c [d|e]] rest IH]; simpl; intros ev Hin.
    - contradiction.
    - destruct Hin as [<-|[]]. exact I.
    - destruct Hin as [<-|Hin]; [exact I|apply IH; exact Hin].
    - destruct Hin as [<-|Hin]; [exact I|apply IH; exact Hin]. }
  destruct lock_err as [e1|]; [|destruct remove_err as [e2|]; [|destruct listen_err as [e3|]]];
    cbn [bridged hd_error]; (split; [try reflexivity|]);
    try apply inbound_loop_bridged; (split; [reflexivity|]); split; split;
    intros H; try reflexivity; try (split; reflexivity); try discriminate;
    try (destruct H; discriminate);
    cbn [In] in *; intuition (try discriminate; try congruence);
    try (match goal with
         | H : In _ (inbound_loop turns) |- _ => apply Hloop in H; contradiction
         end).
Qed.

(** X16.  [UnixProxyServiceOutbound] advertises the service with the tags
    "type" = "Unix Proxy" and "filename", and bridges, in order, exactly the
    accepted Receptor connections whose dial to the Unix socket succeeds, up
    to the first failed [Accept]; if the listener cannot be made, nothing is
    bridged. *)
Theorem UnixProxyServiceOutbound_bridges
    (service filename : string) (listen_err : option error) (turns : list proxy_turn) :
  let run := UnixProxyServiceOutbound service filename listen_err turns in
  hd_error run =
    Some (ListenAndAdvertise service [("type", "Unix Proxy"); ("filename", filename)]) /\
  bridged run = match listen_err with
                | None => connected turns
                | Some _ => []
                end.
Proof.
  intros run. subst run. unfold UnixProxyServiceOutbound. split; [reflexivity|].
  destruct listen_err; cbn [bridged]; [reflexivity|apply outbound_loop_bridged].
Qed.

(* ------------------------------------------------------------------ *)
(** ** The allowed peers of [Init] *)

Lemma Index_comma_cons (c : ascii) (s : string) :
  strings.Index (String c s) "," =
    if Ascii.eqb c "," then 0
    else if strings.Index s "," <? 0 then -1 else strings.Index s "," + 1.
Proof.
  cbn [strings.Index prefix].
  destruct (ascii_dec "," c) as [<-|Hne].
  - destruct s; reflexivity.
  - assert (E : Ascii.eqb c "," = false).
    { apply Ascii.eqb_neq. congruence. }
    rewrite E. reflexivity.
Qed.

Lemma Index_comma_bounds (s : string) :
  -1 <= strings.Index s "," < strings.len s.
Proof.
  unfold strings.len. induction s as [|c s IH].
  - simpl. lia.
  - rewrite Index_comma_cons. cbn [String.length].
    destruct (Ascii.eqb c ","); [lia|].
    destruct (strings.Index s "," <? 0) eqn:E; [lia|].
    apply Z.ltb_ge in E. lia.
Qed.

Lemma Contains_comma_cons (c : ascii) (s : string) :
  strings.Contains (String c s) "," = Ascii.eqb c "," || strings.Contains s ",".
Proof.
  unfold strings.Contains. rewrite Index_comma_cons.
  destruct (Ascii.eqb c ","); [reflexivity|]. simpl.
  destruct (strings.Index s "," <? 0) eqn:E.
  - apply Z.ltb_lt in E. symmetry. apply Z.leb_gt. exact E.
  - apply Z.ltb_ge in E. transitivity true; [|symmetry]; apply Z.leb_le; lia.
Qed.

Lemma slice_to_comma_free (s : string) :
  0 <= strings.Index s "," ->
  strings.Contains (strings.slice_to s (strings.Index s ",")) "," = false.
Proof.
  unfold strings.slice_to. induction s as [|c s IH].
  - simpl. intros H. lia.
  - rewrite Index_comma_cons. destruct (Ascii.eqb c ",") eqn:Ec.
    + intros _. reflexivity.
    + destruct (strings.Index s "," <? 0) eqn:E; [intros H; lia|].
      apply Z.ltb_ge in E. intros _.
      replace (Z.to_nat (strings.Index s "," + 1)) with (S (Z.to_nat (strings.Index s ",")))
        by lia.
      cbn [substring]. rewrite Contains_comma_cons, Ec. simpl. apply IH. exact E.
Qed.

Lemma length_substring_rest (n : nat) (s : string) :
  (n <= String.length s)%nat ->
  String.length (substring n (String.length s - n) s) = (String.length s - n)%nat.
Proof.
  revert n. induction s as [|c s IH]; intros n Hn.
  - destruct n; reflexivity.
  - destruct n as [|n].
    + cbn [String.length Nat.sub substring]. f_equal.
      specialize (IH 0%nat (Nat.le_0_l _)). rewrite Nat.sub_0_r in IH. exact IH.
    + cbn [String.length Nat.sub substring]. apply IH. simpl in Hn. lia.
Qed.

Lemma slice_from_shorter (s : string) :
  0 <= strings.Index s "," ->
  (String.length (strings.slice_from s (strings.Index s "," + strings.len ","))
   < String.length s)%nat.
Proof.
  intros H. pose proof (Index_comma_bounds s) as Hb. unfold strings.len in *.
  unfold strings.slice_from. change (Z.of_nat (String.length ",")) with 1.
  rewrite length_substring_rest; lia.
Qed.

Lemma count_loop_bounds (fuel : nat) :
  forall s : string, 0 <= strings.count_loop fuel s "," <= strings.len s.
Proof.
  unfold strings.len. induction fuel as [|fuel IH]; intros s; cbn [strings.count_loop].
  - lia.
  - destruct (strings.Index s "," <? 0) eqn:E; [lia|]. apply Z.ltb_ge in E.
    pose proof (slice_from_shorter s E) as Hs.
    specialize (IH (strings.slice_from s (strings.Index s "," + strings.len ","))).
    lia.
Qed.

(** Cut at every comma, no part holds one. *)
Lemma split_loop_comma_free (fuel : nat) :
  forall s : string,
    (String.length s < fuel)%nat ->
    Forall (fun p => strings.Contains p "," = false)
           (strings.split_loop (Z.to_nat (strings.count_loop fuel s ",")) s ",").
Proof.
  induction fuel as [|fuel IH]; intros s Hlen; [lia|].
  cbn [strings.count_loop].
  destruct (strings.Index s "," <? 0) eqn:E.
  - simpl. constructor; [|constructor]. unfold strings.Contains.
    apply Z.ltb_lt in E. apply Z.leb_gt. exact E.
  - pose proof E as E'. apply Z.ltb_ge in E'.
    pose proof (count_loop_bounds fuel
                  (strings.slice_from s (strings.Index s "," + strings.len ","))) as Hc.
    replace (Z.to_nat (1 + strings.count_loop fuel
                             (strings.slice_from s (strings.Index s "," + strings.len ",")) ","))
      with (S (Z.to_nat (strings.count_loop fuel
                           (strings.slice_from s (strings.Index s "," + strings.len ",")) ",")))
      by lia.
    cbn [strings.split_loop]. rewrite E. constructor.
    + apply slice_to_comma_free. exact E'.
    + apply IH. pose proof (slice_from_shorter s E'). lia.
Qed.

Lemma Split_comma_free (s : string) :
  Forall (fun p => strings.Contains p "," = false) (strings.Split s ",").
Proof.
  unfold strings.Split, strings.genSplit.
  change (-1 =? 0) with false. change (String.eqb "," "") with false.
  change (-1 <? 0) with true. cbv iota.
  unfold strings.Count. change (String.eqb "," "") with false. cbv iota.
  pose proof (count_loop_bounds (S (String.length s)) s) as Hc.
  assert (E : (strings.len s + 1 <? strings.count_loop (S (String.length s)) s "," + 1) = false)
    by (apply Z.ltb_ge; lia).
  rewrite E.
  replace (strings.count_loop (S (String.length s)) s "," + 1 - 1)
    with (strings.count_loop (S (String.length s)) s ",") by lia.
  apply split_loop_comma_free. lia.
Qed.

Lemma split_loop_nonempty (n : nat) (s sep : string) :
  strings.split_loop n s sep <> [].
Proof.
  destruct n; simpl; [discriminate|].
  destruct (strings.Index s sep <? 0); discriminate.
Qed.

Lemma Contains_comma_In (s : string) :
  strings.Contains s "," = true <-> In ","%char (list_ascii_of_string s).
Proof.
  induction s as [|c s IH].
  - simpl. split; [discriminate|contradiction].
  - rewrite Contains_comma_cons. cbn [list_ascii_of_string In].
    rewrite orb_true_iff, IH, Ascii.eqb_eq. split; intros [H|H]; auto.
Qed.

Lemma In_skipn (A : Type) (x : A) (n : nat) (l : list A) :
  In x (skipn n l) -> In x l.
Proof.
  revert l. induction n as [|n IH]; intros l H; [exact H|].
  destruct l as [|y l]; [exact H|]. right. apply IH. exact H.
Qed.

Section TrimLoop.

Variable width : list ascii -> nat.
Hypothesis width_le : forall l, (width l <= List.length l)%nat.

Lemma trim_loop_In (x : ascii) (fuel : nat) :
  forall l, In x (strings.trim_loop width fuel l) -> In x l.
Proof.
  induction fuel as [|fuel IH]; intros l H; [exact H|].
  cbn [strings.trim_loop] in H. destruct (width l) as [|w]; [exact H|].
  apply IH in H. apply In_skipn in H. exact H.
Qed.

Lemma trim_loop_skipn (fuel : nat) :
  forall l, exists k, strings.trim_loop width fuel l = skipn k l.
Proof.
  induction fuel as [|fuel IH]; intros l; [exists 0%nat; reflexivity|].
  cbn [strings.trim_loop]. destruct (width l) as [|w]; [exists 0%nat; reflexivity|].
  destruct (IH (skipn (S w) l)) as [k Hk]. exists (k + S w)%nat.
  rewrite Hk. apply skipn_skipn.
Qed.

(** With a turn for every byte, the loop ends on a list that begins with no
    white space. *)
Lemma trim_loop_done (fuel : nat) :
  forall l, (List.length l <= fuel)%nat -> width (strings.trim_loop width fuel l) = 0%nat.
Proof.
  induction fuel as [|fuel IH]; intros l Hlen.
  - cbn [strings.trim_loop]. pose proof (width_le l). lia.
  - cbn [strings.trim_loop]. destruct (width l) as [|w] eqn:E; [exact E|].
    apply IH. pose proof (width_le l). rewrite length_skipn. lia.
Qed.

End TrimLoop.

Lemma space_width_le (l : list ascii) : (strings.space_width l <= List.length l)%nat.
Proof.
  unfold strings.space_width.
  destruct l as [|c1 [|c2 [|c3 l]]]; cbn [List.length];
    repeat match goal with
           | |- context [if ?b then _ else _] => destruct b
           end; lia.
Qed.

Lemma space_width_back_le (l : list ascii) :
  (strings.space_width_back l <= List.length l)%nat.
Proof.
  unfold strings.space_width_back.
  destruct l as [|c1 [|c2 [|c3 l]]]; cbn [List.length];
    repeat match goal with
           | |- context [if ?b then _ else _] => destruct b
           end; lia.
Qed.

(** A list that begins with no white space has no prefix that does. *)
Lemma space_width_firstn (m : nat) (l : list ascii) :
  strings.space_width l = 0%nat -> strings.space_width (firstn m l) = 0%nat.
Proof.
  unfold strings.space_width.
  destruct l as [|c1 [|c2 [|c3 l]]]; destruct m as [|[|[|m]]]; cbn [firstn];
    try reflexivity;
    repeat match goal with
           | |- context [if ?b then _ else _] => destruct b
           end; intros H; try reflexivity; try discriminate H.
Qed.

Lemma trim_left_done (l : list ascii) :
  strings.space_width (strings.trim_left l) = 0%nat.
Proof.
  unfold strings.trim_left. apply trim_loop_done; [apply space_width_le|lia].
Qed.

Lemma trim_right_done (l : list ascii) :
  strings.space_width_back (rev (strings.trim_right l)) = 0%nat.
Proof.
  unfold strings.trim_right. rewrite rev_involutive.
  apply trim_loop_done; [apply space_width_back_le|]. rewrite length_rev. lia.
Qed.

Lemma trim_right_prefix (l : list ascii) :
  exists m, strings.trim_right l = firstn m l.
Proof.
  unfold strings.trim_right.
  destruct (trim_loop_skipn strings.space_width_back (List.length l) (rev l)) as [k Hk].
  rewrite Hk, skipn_rev, rev_involutive. eexists. reflexivity.
Qed.

Lemma TrimSpace_bytes (s : string) :
  list_ascii_of_string (strings.TrimSpace s) =
    strings.trim_right (strings.trim_left (list_ascii_of_string s)).
Proof.
  unfold strings.TrimSpace. apply list_ascii_of_string_of_list_ascii.
Qed.

Lemma TrimSpace_trimmed (s : string) :
  strings.leading_space (strings.TrimSpace s) = false /\
  strings.trailing_space (strings.TrimSpace s) = false.
Proof.
  unfold strings.leading_space, strings.trailing_space. rewrite TrimSpace_bytes. split.
  - destruct (trim_right_prefix (strings.trim_left (list_ascii_of_string s))) as [m ->].
    rewrite (space_width_firstn m _ (trim_left_done _)). reflexivity.
  - rewrite trim_right_done. reflexivity.
Qed.

Lemma TrimSpace_comma_free (s : string) :
  strings.Contains s "," = false -> strings.Contains (strings.TrimSpace s) "," = false.
Proof.
  intros H. destruct (strings.Contains (strings.TrimSpace s) ",") eqn:E; [|reflexivity].
  apply Contains_comma_In in E. rewrite TrimSpace_bytes in E.
  unfold strings.trim_right in E. apply in_rev in E.
  apply trim_loop_In in E. apply in_rev in E.
  unfold strings.trim_left in E. apply trim_loop_In in E.
  apply Contains_comma_In in E. congruence.
Qed.

(** X17.  The allowed peers that [Init] hands to the netceptor: none for an
    empty [AllowedPeers], otherwise at least one; no entry has a comma, and
    none begins or ends with white space, be it ASCII or any other white
    space of Unicode.  (An entry may be empty: two commas in a row give the
    empty peer.) *)
Theorem allowed_peers_split_and_trimmed (cfg : nodeCfg) :
  (AllowedPeers cfg = "" -> split_AllowedPeers cfg = []) /\
  (AllowedPeers cfg <> "" -> split_AllowedPeers cfg <> []) /\
  Forall (fun peer => strings.Contains peer "," = false /\
                      strings.leading_space peer = false /\
                      strings.trailing_space peer = false)
         (split_AllowedPeers cfg).
Proof.
  unfold split_AllowedPeers. split; [|split].
  - intros H. rewrite H. reflexivity.
  - intros H. rewrite (eqb_empty_false _ H). simpl.
    unfold strings.Split, strings.genSplit.
    change (-1 =? 0) with false. change (String.eqb "," "") with false. cbv iota.
    intros Hmap. apply map_eq_nil in Hmap. revert Hmap. apply split_loop_nonempty.
  - destruct (negb (String.eqb (AllowedPeers cfg) "")); [|constructor].
    apply Forall_forall. intros peer Hin. apply in_map_iff in Hin.
    destruct Hin as (raw & <- & Hraw).
    pose proof (Split_comma_free (AllowedPeers cfg)) as Hfree.
    rewrite Forall_forall in Hfree. specialize (Hfree raw Hraw).
    split; [apply TrimSpace_comma_free; exact Hfree|apply TrimSpace_trimmed].
Qed.

(** A no-break space (bytes c2 a0) before a peer and an ideographic space
    (e3 80 80) after one are trimmed like the ASCII space. *)
Example allowed_peers_examples :
  let nbsp := String (ascii_of_nat 194) (String (ascii_of_nat 160) EmptyString) in
  let wide := String (ascii_of_nat 227) (String (ascii_of_nat 128)
                (String (ascii_of_nat 128) EmptyString)) in
  split_AllowedPeers (mkNodeCfg "a" " alpha ,beta gamma,, delta" "") =
    ["alpha"; "beta gamma"; ""; "delta"] /\
  split_AllowedPeers (mkNodeCfg "a" ("a," ++ nbsp ++ "b" ++ wide ++ " ,c") "") =
    ["a"; "b"; "c"].
Proof. vm_compute. split; reflexivity. Qed.

(* ------------------------------------------------------------------ *)
(** ** The listener's command-line configuration *)

(** X18.  Whether the listener's [Prepare] fails does not depend on the order
    in which [range] visits the per-node costs: two configurations with the
    same cost and the same entries, in any order, are both accepted or both
    rejected.  (Which node the error names can differ.) *)
Theorem Prepare_order_independent (cfg cfg' : websocketListenerCfg) :
  lc_Cost cfg = lc_Cost cfg' ->
  Permutation (NodeCost cfg) (NodeCost cfg') ->
  (websocketListenerCfg_Prepare cfg = None <-> websocketListenerCfg_Prepare cfg' = None).
Proof.
  intros Hc HP. unfold websocketListenerCfg_Prepare. rewrite <- Hc.
  destruct (lc_Cost cfg <=? 0)%float; [tauto|].
  pose proof (range_NodeCost_order _ _ HP) as H.
  destruct (range_NodeCost (NodeCost cfg)); destruct (range_NodeCost (NodeCost cfg'));
    split; intros H'; try reflexivity; try discriminate;
    exfalso; destruct H as [H1 H2];
    first [ apply H1; [discriminate|reflexivity] | apply H2; [discriminate|reflexivity] ].
Qed.

Lemma Prepare_order_independent_witness :
  let cfg m := mkListenerCfg "0.0.0.0" 8080 "/" "" 1%float m in
  websocketListenerCfg_Prepare (cfg [("a", 0%float); ("b", (-1)%float); ("c", 1%float)])
  = Some (Errorf "connection cost must be positive for a") /\
  websocketListenerCfg_Prepare (cfg [("c", 1%float); ("b", (-1)%float); ("a", 0%float)])
  = Some (Errorf "connection cost must be positive for b") /\
  (websocketListenerCfg_Prepare (cfg [("a", 0%float); ("b", (-1)%float); ("c", 1%float)]) = None
   <-> websocketListenerCfg_Prepare (cfg [("c", 1%float); ("b", (-1)%float); ("a", 0%float)])
       = None).
Proof.
  intros cfg. split; [reflexivity|]. split; [reflexivity|].
  apply (Prepare_order_independent (cfg [("a", 0%float); ("b", (-1)%float); ("c", 1%float)])
           (cfg [("c", 1%float); ("b", (-1)%float); ("a", 0%float)]) eq_refl).
  simpl.
  apply (Permutation_trans (l' := [("a", 0%float); ("c", 1%float); ("b", (-1)%float)])).
  - apply perm_skip. apply perm_swap.
  - apply (Permutation_trans (l' := [("c", 1%float); ("a", 0%float); ("b", (-1)%float)])).
    + apply perm_swap.
    + apply perm_skip. apply perm_swap.
Defined.

(** [websocketListenerCfg.Run] does not panic.  It returns the error of
    [GetServerTLSConfig] without making a listener; otherwise it hands
    [AddBackend] a listener on "BindAddr:Port" (the port in decimal) with the
    configured path and the TLS configuration it got, and returns what
    [AddBackend] returns. *)
Theorem websocketListenerCfg_Run_listener
    (GetServerTLSConfig : string -> option tlsConfig * option error)
    (AddBackend_listener : option WebsocketListener -> float -> costmap -> option error)
    (cfg : websocketListenerCfg) :
  let l := mkListener (BindAddr cfg ++ ":" ++ itoa (Port cfg)) (lc_Path cfg)
                      (fst (GetServerTLSConfig (lc_TLS cfg))) None None in
  websocketListenerCfg_Run GetServerTLSConfig AddBackend_listener cfg =
    match snd (GetServerTLSConfig (lc_TLS cfg)) with
    | Some e => Return (None, Some e)
    | None => Return (Some l, AddBackend_listener (Some l) (lc_Cost cfg) (NodeCost cfg))
    end.
Proof.
  intros l. subst l. unfold websocketListenerCfg_Run.
  destruct (GetServerTLSConfig (lc_TLS cfg)) as [t [e|]]; simpl; [reflexivity|].
  unfold SetPath. simpl.
  destruct (AddBackend_listener _ (lc_Cost cfg) (NodeCost cfg)); reflexivity.
Qed.

Example websocketListenerCfg_Run_address :
  websocketListenerCfg_Run (fun _ => (None, None)) (fun _ _ _ => None)
    (mkListenerCfg "0.0.0.0" 8080 "/mesh" "" 1%float [])
  = Return (Some (mkListener "0.0.0.0:8080" "/mesh" None None None), None).
Proof. reflexivity. Qed.
